(** * Abbreviation tracking of the Emmet plugin (src/abbreviation.py)

    A shallow embedding of the tracking start heuristic, the stop-tracking
    decision and the editor commands of [abbreviation.py], with the editor,
    the tracker registry and the Emmet library as explicit collaborators. *)

From Stdlib Require Import ZArith NArith Ascii String.
From Stdlib Require DecimalString.
From stdpp Require Import base option list gmap.

Local Open Scope Z_scope.

(** ** Python values *)

(** A Python [str] is a sequence of code points. *)
Abbreviation pystr := (list N).

Definition ord (c : ascii) : N := N_of_ascii c.

(** A literal, written as a Rocq string. *)
Definition py (s : string) : pystr := map ord (list_ascii_of_string s).

(** Exceptions that the embedded code can raise. *)
Inductive exn : Type :=
| IndexError
| TypeError.

(** Outcome of a computation that either returns or raises. *)
Inductive result (A : Type) : Type :=
| Ok (x : A)
| Raise (e : exn).
Arguments Ok {A} x.
Arguments Raise {A} e.

Definition bind_result {A B} (r : result A) (k : A -> result B) : result B :=
  match r with
  | Ok x => k x
  | Raise e => Raise e
  end.

Notation "'let*' x ':=' r 'in' k" := (bind_result r (fun x => k))
  (at level 10, x name, r at level 100, k at level 200).

(** [s[i]] on a [str]: a negative index counts from the end, an index out of
    range raises [IndexError]. *)
Definition py_index (s : pystr) (i : Z) : result N :=
  let j := if i <? 0 then i + Z.of_nat (length s) else i in
  if j <? 0 then Raise IndexError
  else match s !! Z.to_nat j with
       | Some c => Ok c
       | None => Raise IndexError
       end.

(** [s[-1]] on a non-empty [str]. *)
Definition py_last (s : pystr) : result N := py_index s (-1).

(** ** [sublime.Region] *)

Record Region : Type := mkRegion { a : Z; b : Z }.

Definition begin (r : Region) : Z := Z.min (a r) (b r).
Definition end_ (r : Region) : Z := Z.max (a r) (b r).
Definition empty (r : Region) : bool := a r =? b r.
Definition contains (r : Region) (pt : Z) : bool :=
  (begin r <=? pt) && (pt <=? end_ r).

(** ** Character classes and the three patterns *)

Definition in_range (lo hi : ascii) (c : N) : bool :=
  (ord lo <=? c)%N && (c <=? ord hi)%N.

Definition is_char (x : ascii) (c : N) : bool := (c =? ord x)%N.

Definition is_letter (c : N) : bool :=
  in_range "a" "z" c || in_range "A" "Z" c.

(** [\s] of a Unicode pattern: the white space of Unicode 6.3 and later. *)
Definition is_space (c : N) : bool :=
  ((9 <=? c) && (c <=? 13) || (28 <=? c) && (c <=? 32)
   || (c =? 133) || (c =? 160) || (c =? 5760)
   || (8192 <=? c) && (c <=? 8202)
   || (c =? 8232) || (c =? 8233) || (c =? 8239) || (c =? 8287)
   || (c =? 12288))%N.

Definition LF : N := 10.
Definition CR : N := 13.

(** The class [[a-zA-Z.#\[\(]] of [re_jsx_abbr_start]. *)
Definition jsx_abbr_start_char (c : N) : bool :=
  is_letter c || is_char "." c || is_char "#" c
  || is_char "[" c || is_char "(" c.

Definition DQUOTE : N := 34.

(** The optional class of [re_word_bound]: [\s], [>], [;] and the double and
    single quote. *)
Definition word_bound_char (c : N) : bool :=
  is_space c || is_char ">" c || is_char ";" c
  || (c =? DQUOTE)%N || is_char "'" c.

(** The class [[a-zA-Z.#!@\[\(]] of [re_word_bound]. *)
Definition abbr_start_char (c : N) : bool :=
  is_letter c || is_char "." c || is_char "#" c || is_char "!" c
  || is_char "@" c || is_char "[" c || is_char "(" c.

(** [$] without [re.MULTILINE]: at the end of the string, or just before a
    line feed that ends the string. *)
Definition at_dollar (rest : pystr) : bool :=
  match rest with
  | [] => true
  | [c] => (c =? LF)%N
  | _ => false
  end.

(** [re_jsx_abbr_start.match(s)] for [^[a-zA-Z.#\[\(]$]. *)
Definition re_jsx_abbr_start (s : pystr) : bool :=
  match s with
  | c :: rest => jsx_abbr_start_char c && at_dollar rest
  | [] => false
  end.

(** [re_word_bound.match(s)]: the optional class, the class
    [[a-zA-Z.#!@\[\(]] and [$]; the optional class is tried first, then
    skipped. *)
Definition re_word_bound (s : pystr) : bool :=
  match s with
  | c0 :: rest =>
      (word_bound_char c0 &&
         match rest with
         | c1 :: rest' => abbr_start_char c1 && at_dollar rest'
         | [] => false
         end)
      || (abbr_start_char c0 && at_dollar rest)
  | [] => false
  end.

(** [re.search(r'[\n\r]', s)]. *)
Definition has_line_break (s : pystr) : bool :=
  existsb (fun c => (c =? LF)%N || (c =? CR)%N) s.

(** The dict [pairs], in the order it is written. *)
Definition pairs : list (N * N) :=
  [(ord "{", ord "}"); (ord "[", ord "]"); (ord "(", ord ")")].

(** [pairs[k]], with [None] for [k not in pairs]. *)
Fixpoint pairs_get (d : list (N * N)) (k : N) : option N :=
  match d with
  | [] => None
  | (k', v) :: d' => if (k =? k')%N then Some v else pairs_get d' k
  end.

(** [pairs.values()]. *)
Definition pairs_values (d : list (N * N)) : list N := map snd d.

(** [c in pairs.values()]. *)
Definition in_values (c : N) (vs : list N) : bool :=
  existsb (fun v => (c =? v)%N) vs.

(** ** Trackers *)

(** The dict stored in [trk.abbreviation]: the text that was parsed and,
    when the grammar rejected it, the ['error'] entry. *)
Record Abbreviation : Type := mkAbbreviation {
  abbr : pystr;
  error : option pystr
}.

(** ['error' in trk.abbreviation]. *)
Definition has_error (ab : Abbreviation) : bool :=
  match error ab with
  | Some _ => true
  | None => false
  end.

Section Tracking.

(** The options bag of a tracker, opaque to this module. *)
Context {Config : Type}.

Record RegionTracker : Type := mkTracker {
  region : Region;
  abbreviation : option Abbreviation;
  forced : bool;
  offset : Z;
  config : Config;
  preview_visible : bool
}.

(** *** [should_stop_tracking] *)

(** The closing characters, as the spec lists them. *)
Definition is_closer (c : N) : bool :=
  is_char "}" c || is_char "]" c || is_char ")" c.

(** Length of the longest prefix of [s] whose characters satisfy [p]. *)
Fixpoint run_length (p : N -> bool) (s : pystr) : nat :=
  match s with
  | c :: s' => if p c then S (run_length p s') else O
  | [] => O
  end.

Definition trailing_closers (s : pystr) : nat :=
  run_length is_closer (rev s).

(** The decision as the spec words it (rules 1 to 4 of the reconciler):
    forced trackers are kept; an absent abbreviation or a line break stops;
    an invalid abbreviation stops when the caret is at the end of the region
    or at the start of the run of closers that ends the text. *)
Definition spec_should_stop (trk : RegionTracker) (pos : Z) : bool :=
  if forced trk then false
  else
    match abbreviation trk with
    | None => true
    | Some ab =>
        has_line_break (abbr ab)
        || has_error ab
           && ((pos =? end_ (region trk))
               || (pos =? end_ (region trk)
                          - Z.of_nat (trailing_closers (abbr ab))))
    end.

(** The [while] loop of [should_stop_tracking]; [fuel] bounds the number of
    iterations. *)
Fixpoint walk_back (fuel : nat) (abbr_text : pystr) (pairs_end : list N)
    (start target_pos : Z) : result Z :=
  match fuel with
  | O => Ok target_pos
  | S fuel' =>
      if target_pos >? start then
        let* c := py_index abbr_text (target_pos - start - 1) in
        if in_values c pairs_end
        then walk_back fuel' abbr_text pairs_end start (target_pos - 1)
        else Ok target_pos
      else Ok target_pos
  end.

Definition should_stop_tracking (trk : RegionTracker) (pos : Z) : result bool :=
  if forced trk then Ok false
  else
    match abbreviation trk with
    | None => Ok true
    | Some ab =>
        if has_line_break (abbr ab) then Ok true
        else if has_error ab then
          if end_ (region trk) =? pos then Ok true
          else
            let pairs_end := pairs_values pairs in
            let abbr_text := abbr ab in
            let start := begin (region trk) in
            let target_pos := end_ (region trk) in
            let* target_pos :=
              walk_back (Z.to_nat (target_pos - start)) abbr_text pairs_end
                start target_pos in
            Ok (target_pos =? pos)
        else Ok false
    end.

(** *** The editor *)

(** What this module reads and writes of a [sublime.View]: its id, its text,
    its selection, the [is_widget] setting and the regions stored under
    [tracker.ABBR_REGION_ID]. *)
Record View : Type := mkView {
  view_id : Z;
  buffer : pystr;
  sel : list Region;
  is_widget : bool;
  marked : list Region
}.

Definition size (v : View) : Z := Z.of_nat (length (buffer v)).

(** [view.substr(r)]: the text between [r.begin()] and [r.end()], clipped to
    the buffer. *)
Definition substr (v : View) (r : Region) : pystr :=
  let lo := Z.to_nat (begin r) in
  let hi := Z.to_nat (end_ r) in
  take (hi - lo)%nat (drop lo (buffer v)).

Definition set_sel (v : View) (s : list Region) : View :=
  mkView (view_id v) (buffer v) s (is_widget v) (marked v).

Definition set_marked (v : View) (m : list Region) : View :=
  mkView (view_id v) (buffer v) (sel v) (is_widget v) m.

(** The state the handlers run in: the view they are called with and the
    registry of the tracker module, keyed by [view.id()]. *)
Record Editor : Type := mkEditor {
  view : View;
  trackers : gmap Z RegionTracker
}.

(** The value [emmet.extract_abbreviation] returns first, when it finds an
    abbreviation. *)
Record Extracted : Type := mkExtracted {
  ex_start : Z;
  ex_end : Z;
  ex_location : Z
}.

(** The collaborators of [abbreviation.py] that are not part of it: the
    settings and the Emmet library ([emmet_sublime]), the syntax classifier
    ([syntax]), the editor helpers ([utils]) and the parts of [tracker] that
    depend on the grammar or on the edit history. *)
Class Host : Type := mkHost {
  JSX_PREFIX : pystr;
  auto_mark : bool;
  context_size_limit : Z;
  default_config : Config;
  get_options : View -> Z -> bool -> Config;
  extract_abbreviation : View -> Z -> Config -> option Extracted;
  has_context : Config -> bool;
  attach_context : View -> Z -> Config -> Config;
  expand : pystr -> Config -> pystr;
  parse_error : pystr -> Config -> option pystr;
  in_activation_scope : View -> Z -> bool;
  is_jsx_at : View -> Z -> bool;
  get_caret : View -> Z;
  replace_with_snippet : Editor -> Region -> pystr -> Editor;
  handle_change : Editor -> option RegionTracker * Editor
}.

Context {host : Host}.

(** Outcome of a handler: it returns, or it raises, in both cases leaving an
    editor state behind. *)
Inductive outcome (A : Type) : Type :=
| Done (x : A) (e : Editor)
| Crashed (x : exn) (e : Editor).
Arguments Done {A} x e.
Arguments Crashed {A} x e.

Definition final {A} (o : outcome A) : Editor :=
  match o with
  | Done _ e => e
  | Crashed _ e => e
  end.

(** *** The tracker module *)

(** Modelled from the spec: [tracker.get_tracker], missing from the sources;
    it returns the active tracker of the view or none and has no side
    effect. *)
Definition get_tracker (e : Editor) : option RegionTracker :=
  trackers e !! view_id (view e).

(** Modelled from the spec: [tracker.stop_tracking], missing from the
    sources; it removes the tracker of the view from the registry and clears
    the persistent span marker, and does nothing else. *)
Definition stop_tracking (e : Editor) : Editor :=
  mkEditor (set_marked (view e) []) (delete (view_id (view e)) (trackers e)).

(** Modelled from the spec: the parsed state of a tracker, missing from the
    sources; the text of the region without its first [offset] characters
    goes to the grammar, an empty text gives no abbreviation and a rejected
    one keeps the error. *)
Definition parse_abbreviation (v : View) (r : Region) (off : Z)
    (cfg : Config) : option Abbreviation :=
  let text := drop (Z.to_nat off) (substr v r) in
  match text with
  | [] => None
  | _ => Some (mkAbbreviation text (parse_error text cfg))
  end.

(** Modelled from the spec: [tracker.start_tracking], missing from the
    sources; it creates a tracker for the span, registers it in place of any
    tracker of the view, marks the span and returns the tracker. *)
Definition start_tracking (e : Editor) (start end' : Z) (forced' : bool)
    (off : Z) (cfg : Config) : RegionTracker * Editor :=
  let r := mkRegion start end' in
  let trk :=
    mkTracker r (parse_abbreviation (view e) r off cfg) forced' off cfg false in
  (trk, mkEditor (set_marked (view e) [r])
                 (<[view_id (view e) := trk]> (trackers e))).

(** Modelled from the spec: [trk.show_preview(view)], missing from the
    sources, on the tracker registered for the view; it sets the preview
    flag. *)
Definition show_preview (e : Editor) : Editor :=
  mkEditor (view e)
    (alter (fun t => mkTracker (region t) (abbreviation t) (forced t)
                       (offset t) (config t) true)
       (view_id (view e)) (trackers e)).

(** *** [abbreviation.py] *)

Definition is_enabled (v : View) : bool := auto_mark.

Definition allow_tracking (v : View) (pos : Z) : bool :=
  is_enabled v && in_activation_scope v pos.

(** The JSX test on the prefix: [len(prefix) == 2], then
    [prefix[0] == emmet.JSX_PREFIX] (a one-character string against the
    marker), then [re_jsx_abbr_start.match(prefix[1])]. *)
Definition jsx_prefixed (prefix : pystr) : bool :=
  match prefix with
  | [c0; c1] => bool_decide ([c0] = JSX_PREFIX) && re_jsx_abbr_start [c1]
  | _ => false
  end.

(** The characters next to the caret, where the buffer has them. *)
Definition char_before (v : View) (pos : Z) : option N :=
  if 1 <=? pos then buffer v !! Z.to_nat (pos - 1) else None.

Definition char_after (v : View) (pos : Z) : option N :=
  if 0 <=? pos then buffer v !! Z.to_nat pos else None.

(** The JSX entry rule as the spec words it: the two characters before the
    caret are the marker and a candidate start character. *)
Definition jsx_marker_before (v : View) (pos : Z) : Prop :=
  exists m c,
    2 <= pos
    /\ char_before v (pos - 1) = Some m /\ char_before v pos = Some c
    /\ JSX_PREFIX = [m] /\ jsx_abbr_start_char c = true.

(** The entry rule outside JSX as the spec words it: an abbreviation-start
    character before the caret, itself at the start of the text or after a
    boundary character. *)
Definition word_start_before (v : View) (pos : Z) : Prop :=
  exists c,
    char_before v pos = Some c /\ abbr_start_char c = true
    /\ (pos = 1
        \/ exists w, char_before v (pos - 1) = Some w
                     /\ word_bound_char w = true).

(** What the pattern also accepts: a start character two places before the
    caret, followed by a line feed. *)
Definition line_feed_after_start (v : View) (pos : Z) : Prop :=
  exists c,
    char_before v (pos - 1) = Some c /\ abbr_start_char c = true
    /\ char_before v pos = Some LF.

(** The bracket rule as the spec words it: an opening bracket before the
    caret and its closer after it. *)
Definition closer_follows (v : View) (pos : Z) : bool :=
  match char_before v pos, char_after v pos with
  | Some opener, Some closer =>
      bool_decide (pairs_get pairs opener = Some closer)
  | _, _ => false
  end.

(** The two characters before [pos] that the start heuristic reads. *)
Definition prefix_at (v : View) (pos : Z) : pystr :=
  substr v (mkRegion (Z.max 0 (pos - 2)) pos).

Definition start_abbreviation_tracking (e : Editor) (pos : Z)
  : outcome (option RegionTracker) :=
  let v := view e in
  let prefix := prefix_at v pos in
  let end0 := pos in
  let '(start, off) :=
    if is_jsx_at v pos then
      if jsx_prefixed prefix
      then (pos - 2, Z.of_nat (length JSX_PREFIX))
      else (-1, 0)
    else if re_word_bound prefix then (pos - 1, 0)
    else (-1, 0) in
  if start >=? 0 then
    match py_last prefix with
    | Raise x => Crashed x e
    | Ok last_ch =>
    let end1 :=
      match pairs_get pairs last_ch with
      | Some closer =>
          let next_char_region := mkRegion pos (Z.min (pos + 1) (size v)) in
          if bool_decide (substr v next_char_region = [closer])
          then end0 + 1 else end0
      | None => end0
      end in
    let max_doc_size := context_size_limit in
    let with_context := (max_doc_size >? 0) && (size v <? max_doc_size) in
    let cfg := get_options v start with_context in
    let '(trk, e') := start_tracking e start end1 false off cfg in
    Done (Some trk) e'
    end
  else Done None e.

(** The test of [start_abbreviation_tracking] that makes [start]
    non-negative. *)
Definition starts_tracking (v : View) (pos : Z) : bool :=
  if is_jsx_at v pos then jsx_prefixed (prefix_at v pos)
  else re_word_bound (prefix_at v pos).

Definition suggest_abbreviation_tracker (e : Editor) (pos : Z)
  : option RegionTracker * Editor :=
  if negb (allow_tracking (view e) pos) then (None, e)
  else
    let '(trk, e1) :=
      match get_tracker e with
      | Some t =>
          if negb (contains (region t) pos) then (None, stop_tracking e)
          else (Some t, e)
      | None => (None, e)
      end in
    match trk with
    | None =>
        let cfg := get_options (view e1) pos true in
        match extract_abbreviation (view e1) pos cfg with
        | Some ab =>
            let off := ex_location ab - ex_start ab in
            let '(t, e2) :=
              start_tracking e1 (ex_start ab) (ex_end ab) false off cfg in
            (Some t, e2)
        | None => (None, e1)
        end
    | Some _ => (None, e1)
    end.

(** What [suggest_abbreviation_tracker e pos] does once the view has no
    tracker, in the state [e1], as the spec words it: a tracker over the
    extracted range is started and returned, or nothing is created and none
    is returned. *)
Definition suggests_from (e e1 : Editor) (pos : Z) : Prop :=
  match extract_abbreviation (view e1) pos (get_options (view e1) pos true) with
  | Some ab =>
      exists trk e2,
        suggest_abbreviation_tracker e pos = (Some trk, e2)
        /\ region trk = mkRegion (ex_start ab) (ex_end ab)
        /\ offset trk = ex_location ab - ex_start ab
        /\ forced trk = false
        /\ get_tracker e2 = Some trk
  | None =>
      suggest_abbreviation_tracker e pos = (None, e1)
      /\ get_tracker e1 = None
  end.

(** [expand_abbreviation]: the context is attached to the config of the
    tracker in place, so the registered tracker sees it too. *)
Definition expand_abbreviation (e : Editor) (trk : RegionTracker)
  : outcome pystr :=
  let '(cfg, e1) :=
    if negb (has_context (config trk)) then
      let cfg := attach_context (view e) (begin (region trk)) (config trk) in
      (cfg,
       mkEditor (view e)
         (alter (fun t => mkTracker (region t) (abbreviation t) (forced t)
                            (offset t) cfg (preview_visible t))
            (view_id (view e)) (trackers e)))
    else (config trk, e) in
  match abbreviation trk with
  | Some ab => Done (expand (abbr ab) cfg) e1
  | None => Crashed TypeError e1
  end.

(** [EmmetExpandAbbreviation.run]. *)
Definition EmmetExpandAbbreviation_run (e : Editor) : outcome unit :=
  let caret := get_caret (view e) in
  match get_tracker e with
  | Some trk =>
      if contains (region trk) caret then
        let expanded :=
          match abbreviation trk with
          | Some ab =>
              if negb (has_error ab) then
                match expand_abbreviation e trk with
                | Done snippet e1 =>
                    Done tt (replace_with_snippet e1 (region trk) snippet)
                | Crashed x e1 => Crashed x e1
                end
              else Done tt e
          | None => Done tt e
          end in
        match expanded with
        | Done _ e2 => Done tt (stop_tracking e2)
        | Crashed x e2 => Crashed x e2
        end
      else Done tt e
  | None => Done tt e
  end.

(** [EmmetEnterAbbreviation.run]. *)
Definition EmmetEnterAbbreviation_run (e : Editor) : outcome unit :=
  let trk := get_tracker e in
  let e1 := stop_tracking e in
  if match trk with Some t => forced t | None => false end then Done tt e1
  else
    match sel (view e1) !! 0%nat with
    | None => Crashed IndexError e1
    | Some primary_sel =>
        let '(_, e2) :=
          start_tracking e1 (begin primary_sel) (end_ primary_sel) true 0
            default_config in
        if negb (empty primary_sel) then
          let e3 := show_preview e2 in
          let caret := mkRegion (end_ primary_sel) (end_ primary_sel) in
          Done tt (mkEditor (set_sel (view e3) [caret]) (trackers e3))
        else Done tt e2
    end.

(** *** [AbbreviationMarkerListener] *)

Record Listener : Type := mkListener {
  last_pos_tracker : gmap Z Z;
  pending_completions_request : bool
}.

(** The decorator [main_view]: the handler runs in code views only. *)
Definition main_view (fn : Listener -> Editor -> outcome Listener)
    (l : Listener) (e : Editor) : outcome Listener :=
  if negb (is_widget (view e)) then fn l e else Done l e.

Definition on_modified_body (l : Listener) (e : Editor) : outcome Listener :=
  let key := view_id (view e) in
  let pos := get_caret (view e) in
  let last_pos := last_pos_tracker l !! key in
  let '(trk, e1) := handle_change e in
  let started :=
    match trk, last_pos with
    | None, Some last =>
        if (last =? pos - 1) && allow_tracking (view e1) last
        then start_abbreviation_tracking e1 pos
        else Done None e1
    | _, _ => Done trk e1
    end in
  match started with
  | Crashed x e2 => Crashed x e2
  | Done trk e2 =>
      let l' :=
        mkListener (<[key := pos]> (last_pos_tracker l))
          (pending_completions_request l) in
      match trk with
      | Some t =>
          match should_stop_tracking t pos with
          | Raise x => Crashed x e2
          | Ok true => Done l' (stop_tracking e2)
          | Ok false => Done l' e2
          end
      | None => Done l' e2
      end
  end.

Definition on_modified : Listener -> Editor -> outcome Listener :=
  main_view on_modified_body.

End Tracking.

Arguments RegionTracker Config : clear implicits.
Arguments Editor Config : clear implicits.
Arguments Host Config : clear implicits.
Arguments outcome Config A : clear implicits.
Arguments Done {Config A} x e.
Arguments Crashed {Config A} x e.

(** ** The other commands and handlers of [abbreviation.py] *)

(** [r.contains(s)] for a region [s]: both ends of [s] are in [r]. *)
Definition contains_region (r s : Region) : bool :=
  (begin r <=? begin s) && (end_ s <=? end_ r).

Section Handlers.

Context {Config : Type}.

(** What the remaining handlers use besides [Host]: the ['prefix'] entry of
    a config ([config.get('prefix', '')]), the [tab_expand] setting and
    [tracker.handle_selection_change], which is not among the sources. *)
Class ListenerHost : Type := mkListenerHost {
  config_prefix : Config -> pystr;
  tab_expand : bool;
  handle_selection_change :
    Editor Config -> option (RegionTracker Config) * Editor Config
}.

Context {host : Host Config} {lhost : ListenerHost}.

(** Modelled from the spec: [trk.hide_preview(view)], missing from the
    sources, on the tracker registered for the view; it clears the preview
    flag. *)
Definition hide_preview (e : Editor Config) : Editor Config :=
  mkEditor (view e)
    (alter (fun t => mkTracker (region t) (abbreviation t) (forced t)
                       (offset t) (config t) false)
       (view_id (view e)) (trackers e)).

Definition restore_tracker (e : Editor Config)
  : option (RegionTracker Config) * Editor Config :=
  let marked_list := marked (view e) in
  match marked_list, get_tracker e with
  | r :: _, None =>
      let cfg := get_options (view e) (begin r) true in
      let off := Z.of_nat (length (config_prefix cfg)) in
      let '(trk, e') := start_tracking e (begin r) (end_ r) false off cfg in
      (Some trk, e')
  | _, _ => (None, e)
  end.

(** [EmmetExtractAbbreviation.run]. *)
Definition EmmetExtractAbbreviation_run (e : Editor Config) : Editor Config :=
  let '(trk, e1) := suggest_abbreviation_tracker e (get_caret (view e)) in
  match trk with
  | Some _ => show_preview e1
  | None => e1
  end.

(** [EmmetClearAbbreviationMarker.run]. *)
Definition EmmetClearAbbreviationMarker_run (e : Editor Config)
  : Editor Config :=
  stop_tracking e.

Definition on_close : Listener -> Editor Config -> outcome Config Listener :=
  main_view (fun l e =>
    let e1 := stop_tracking e in
    let key := view_id (view e1) in
    Done (mkListener (delete key (last_pos_tracker l))
            (pending_completions_request l))
      e1).

Definition on_activated
  : Listener -> Editor Config -> outcome Config Listener :=
  main_view (fun l e =>
    let '(_, e1) := handle_selection_change e in
    Done (mkListener
            (<[view_id (view e1) := get_caret (view e1)]>
               (last_pos_tracker l))
            (pending_completions_request l))
      e1).

Definition on_selection_modified
  : Listener -> Editor Config -> outcome Config Listener :=
  main_view (fun l e =>
    if negb (is_enabled (view e)) then Done l e
    else
      let '(trk, e1) := handle_selection_change e in
      let caret := get_caret (view e1) in
      let e2 :=
        match trk with
        | Some t =>
            if match abbreviation t with Some _ => true | None => false end
               && contains (region t) caret
            then show_preview e1
            else hide_preview e1
        | None => e1
        end in
      Done (mkListener (<[view_id (view e2) := caret]> (last_pos_tracker l))
              (pending_completions_request l))
        e2).

(** The loop of [on_query_context] over [view.sel()]: the answer at the
    first selection inside the region of the tracker, [False] when there is
    none. The answer [trk.forced or (trk.abbreviation and 'error' not in
    trk.abbreviation)] is [None] for a tracker that is not forced and has no
    abbreviation. *)
Fixpoint query_selections (trk : RegionTracker Config) (sels : list Region)
  : option bool :=
  match sels with
  | s :: rest =>
      if contains_region (region trk) s then
        if forced trk then Some true
        else
          match abbreviation trk with
          | Some ab => Some (negb (has_error ab))
          | None => None
          end
      else query_selections trk rest
  | [] => Some false
  end.

(** [on_query_context]; the result is [True], [False] or [None]. *)
Definition on_query_context (e : Editor Config) (key : string)
  : option bool :=
  if String.eqb key "emmet_abbreviation" then
    match get_tracker e with
    | Some trk => query_selections trk (sel (view e))
    | None => Some false
    end
  else if String.eqb key "emmet_tab_expand" then Some tab_expand
  else if String.eqb key "has_emmet_abbreviation_mark" then
    Some (match get_tracker e with Some _ => true | None => false end)
  else if String.eqb key "has_emmet_forced_abbreviation_mark" then
    Some (match get_tracker e with Some trk => forced trk | None => false end)
  else None.

(** The tab character of ['%s\tEmmet']. *)
Definition TAB : N := 9.

(** [on_query_completions]; the listener is returned apart, since the flag
    is reset before the calls that can raise. The result is the list of
    completions or [None]. *)
Definition on_query_completions (l : Listener) (e : Editor Config)
    (locations : list Z)
  : Listener * outcome Config (option (list (pystr * pystr))) :=
  match locations with
  | [] => (l, Crashed IndexError e)
  | pos :: _ =>
      if pending_completions_request l then
        let l' := mkListener (last_pos_tracker l) false in
        let '(trk, e1) := suggest_abbreviation_tracker e pos in
        match trk with
        | Some t =>
            let abbr_str := substr (view e1) (region t) in
            match expand_abbreviation e1 t with
            | Done snippet e2 =>
                (l', Done (Some [(abbr_str ++ TAB :: py "Emmet", snippet)]) e2)
            | Crashed x e2 => (l', Crashed x e2)
            end
        | None => (l', Done None e1)
        end
      else (l, Done None e)
  end.

Definition on_text_command (l : Listener) (e : Editor Config)
    (command_name : string) : Listener * Editor Config :=
  if String.eqb command_name "auto_complete" && is_enabled (view e) then
    (mkListener (last_pos_tracker l) true, e)
  else if String.eqb command_name "commit_completion" then
    (l, stop_tracking e)
  else (l, e).

Definition on_post_text_command (l : Listener) (e : Editor Config)
    (command_name : string) : Listener * Editor Config :=
  if String.eqb command_name "auto_complete" then
    (mkListener (last_pos_tracker l) false, e)
  else if String.eqb command_name "undo" then
    let '(trk, e1) := restore_tracker e in
    match trk with
    | Some _ => (l, show_preview e1)
    | None => (l, e1)
    end
  else (l, e).




End Handlers.

Arguments ListenerHost Config : clear implicits.

(** ** Tag pairs and their preview ([go_to_tag_pair.py]) *)

Module GoToTagPair.

(** [s.replace(c, rep)] for a one-character [c]. *)
Definition replace_char (c : N) (rep : pystr) (s : pystr) : pystr :=
  flat_map (fun x => if (x =? c)%N then rep else [x]) s.

(** [html.escape(s, False)]: the ampersand first, then the two angle
    brackets; quotes are left alone. *)
Definition html_escape (s : pystr) : pystr :=
  let s := replace_char (ord "&") (py "&amp;") s in
  let s := replace_char (ord "<") (py "&lt;") s in
  replace_char (ord ">") (py "&gt;") s.

(** ['%d' % n]. *)
Definition format_d (n : Z) : pystr :=
  py (DecimalString.NilZero.string_of_int (Z.to_int n)).

(** A line of the template, with the line feed that ends it. *)
Definition line (s : string) : pystr := py s ++ [LF].

(** The template of [phantom_content] up to [%d], between [%d] and [%s],
    and after [%s]. *)
Definition template_head : pystr :=
  [LF]
  ++ line "    <body>"
  ++ line "        <style>"
  ++ line "            body {"
  ++ line "                background-color: color(var(--accent) alpha(0.3));"
  ++ line "                color: var(--foreground);"
  ++ line "                border-radius: 3px;"
  ++ line "                padding: 0px 3px;"
  ++ line "                opacity: 0.2;"
  ++ line "                font-size: 1rem;"
  ++ line "            }"
  ++ line "            a {"
  ++ line "                text-decoration: none;"
  ++ line "                color: var(--foreground);"
  ++ line "            }"
  ++ line "        </style>"
  ++ py "        <div class=" ++ [DQUOTE] ++ py "main" ++ [DQUOTE]
  ++ py "><a href=" ++ [DQUOTE].

Definition template_link : pystr := [DQUOTE] ++ py ">".

Definition template_tail : pystr :=
  line "</a></div>" ++ line "    </body>" ++ py "    ".

Definition phantom_content (content : pystr) (dest : Z) : pystr :=
  template_head ++ format_d dest ++ template_link ++ html_escape content
  ++ template_tail.
Arguments phantom_content : simpl never.

(** Number of occurrences of a character. *)
Fixpoint occurrences (c : N) (s : pystr) : nat :=
  match s with
  | x :: s' => (if (x =? c)%N then 1 else 0) + occurrences c s'
  | [] => 0
  end.

Definition max_preview_len : nat := 100.

Inductive Layout : Type :=
| LAYOUT_INLINE
| LAYOUT_BELOW
| LAYOUT_BLOCK.

(** A [sublime.Phantom]; its [on_navigate] callback, which calls
    [go_to_pos] with the target of the link, is not part of the value. *)
Record Phantom : Type := mkPhantom {
  phantom_region : Region;
  phantom_html : pystr;
  phantom_layout : Layout
}.

(** What this module reads and writes of a view, apart from the phantoms
    drawn on it: the id of its buffer, its text, its selection, the visible
    region and the [emmet_tag_preview] setting. *)
Record View : Type := mkView {
  buffer_id : Z;
  buffer : pystr;
  sel : list Region;
  visible_region : Region;
  emmet_tag_preview : bool
}.

(** The view a handler is called with, the phantoms drawn on it under
    [phantom_key], and the two dicts of the module; a phantom set is kept as
    the phantoms it holds. *)
Record State : Type := mkState {
  view : View;
  phantoms : list Phantom;
  previews_by_buffer : gmap Z (Z * bool);
  phantoms_by_buffer : gmap Z (list Phantom)
}.

(** The dict [emmet.get_tag_context] returns, as far as it is read: the
    entries ['open'] and ['close'], each present or not. *)
Record TagContext : Type := mkTagContext {
  ctx_open : option Region;
  ctx_close : option Region
}.

Inductive exn : Type :=
| KeyError.

Inductive outcome : Type :=
| Done (s : State)
| Raised (x : exn) (s : State).

Definition final (o : outcome) : State :=
  match o with
  | Done s => s
  | Raised _ s => s
  end.

(** [view.substr(r)] for a region, and [view.substr(pt)] for a point, which
    is a character only inside the text. *)
Definition substr (v : View) (r : Region) : pystr :=
  let lo := Z.to_nat (begin r) in
  let hi := Z.to_nat (end_ r) in
  take (hi - lo)%nat (drop lo (buffer v)).

Definition char_at (v : View) (pt : Z) : option N :=
  if 0 <=? pt then buffer v !! Z.to_nat pt else None.

Section Handlers.

(** The collaborators: [utils.get_caret], [syntax.from_pos], [is_html] and
    [is_xml], [emmet.get_tag_context], and the visible region after
    [view.show(pos)]. *)
Class Host : Type := mkHost {
  get_caret : View -> Z;
  from_pos : View -> Z -> pystr;
  is_html : pystr -> bool;
  is_xml : pystr -> bool;
  get_tag_context : View -> Z -> bool -> option TagContext;
  show : View -> Z -> Region
}.

Context {host : Host}.

Definition show_tag_preview (s : State) (pt : Z) (text : pystr) (dest : Z)
  : State :=
  let bid := buffer_id (view s) in
  let registry :=
    match phantoms_by_buffer s !! bid with
    | None => <[bid := []]> (phantoms_by_buffer s)
    | Some _ => phantoms_by_buffer s
    end in
  let r := mkRegion pt pt in
  let new_phantoms :=
    [mkPhantom r (phantom_content text dest) LAYOUT_INLINE] in
  mkState (view s) new_phantoms (previews_by_buffer s)
    (<[bid := new_phantoms]> registry).

Definition hide_tag_preview (s : State) : State :=
  let bid := buffer_id (view s) in
  match phantoms_by_buffer s !! bid with
  | Some _ =>
      mkState (view s) [] (previews_by_buffer s)
        (delete bid (phantoms_by_buffer s))
  | None => s
  end.

Definition go_to_pos (s : State) (pos : Z) : State :=
  let v := view s in
  let v1 :=
    mkView (buffer_id v) (buffer v) [mkRegion pos pos] (visible_region v)
      (emmet_tag_preview v) in
  let v2 :=
    mkView (buffer_id v1) (buffer v1) (sel v1) (show v1 pos)
      (emmet_tag_preview v1) in
  hide_tag_preview
    (mkState v2 (phantoms s) (previews_by_buffer s) (phantoms_by_buffer s)).

(** [GoToTagPair.run]. *)
Definition GoToTagPair_run (s : State) : State :=
  let v := view s in
  let caret := get_caret v in
  let caret :=
    if bool_decide (char_at v caret = Some (ord "<")) then caret + 1
    else caret in
  let syntax_name := from_pos v caret in
  if is_html syntax_name then
    match get_tag_context v caret (is_xml syntax_name) with
    | Some ctx =>
        match ctx_open ctx, ctx_close ctx with
        | Some open_tag, Some close_tag =>
            let pos :=
              if contains open_tag caret then a close_tag else a open_tag in
            go_to_pos s pos
        | _, _ => s
        end
    | None => s
    end
  else s.

(** [HideTagPreview.run]. *)
Definition HideTagPreview_run (s : State) : State :=
  let bid := buffer_id (view s) in
  match previews_by_buffer s !! bid with
  | Some (pt, true) =>
      mkState (view s) (phantoms s)
        (<[bid := (pt, false)]> (previews_by_buffer s))
        (phantoms_by_buffer s)
  | _ => s
  end.

(** [PreviewTagPair.on_query_context]; the result is a bool or [None]. *)
Definition on_query_context (s : State) (key : string) : option bool :=
  if String.eqb key "emmet_tag_preview" then
    match previews_by_buffer s !! buffer_id (view s) with
    | Some (_, visible) => Some visible
    | None => None
    end
  else None.

(** The end of [on_selection_modified_async], reached from every branch
    that has not returned: the preview is hidden and its record deleted. *)
Definition hide_and_forget (s : State) : State :=
  let s1 := hide_tag_preview s in
  mkState (view s1) (phantoms s1)
    (delete (buffer_id (view s1)) (previews_by_buffer s1))
    (phantoms_by_buffer s1).

(** [PreviewTagPair.on_selection_modified_async]. *)
Definition on_selection_modified_async (s : State) : outcome :=
  let v := view s in
  if negb (emmet_tag_preview v) then Done s
  else
    let caret := get_caret v in
    let syntax_name := from_pos v caret in
    let bid := buffer_id v in
    if is_html syntax_name then
      match get_tag_context v caret (is_xml syntax_name) with
      | Some ctx =>
          match ctx_close ctx with
          | Some close_tag =>
              if contains close_tag caret then
                match ctx_open ctx with
                | None => Raised KeyError s
                | Some open_tag =>
                    if negb (contains_region (visible_region v) open_tag)
                    then
                      let pos := b close_tag in
                      if match previews_by_buffer s !! bid with
                         | Some (pt, _) => pt =? pos
                         | None => false
                         end
                      then Done s
                      else
                        let preview := substr v open_tag in
                        let preview :=
                          if (max_preview_len <? length preview)%nat
                          then take max_preview_len preview ++ py "..."
                          else preview in
                        let s1 :=
                          show_tag_preview s pos preview (a open_tag) in
                        Done (mkState (view s1) (phantoms s1)
                                (<[bid := (pos, true)]>
                                   (previews_by_buffer s1))
                                (phantoms_by_buffer s1))
                    else Done (hide_and_forget s)
                end
              else Done (hide_and_forget s)
          | None => Done (hide_and_forget s)
          end
      | None => Done (hide_and_forget s)
      end
    else Done (hide_and_forget s).

(** What the handlers keep true: a phantom set is registered only for a
    buffer with a recorded preview, and phantoms are drawn only while the
    buffer of the view has a phantom set. *)
Definition consistent (s : State) : Prop :=
  (forall k, is_Some (phantoms_by_buffer s !! k) ->
             is_Some (previews_by_buffer s !! k))
  /\ (phantoms s <> [] ->
      is_Some (phantoms_by_buffer s !! buffer_id (view s))).

End Handlers.

(** A host for a page that is one element: every position is HTML, the
    caret is the first selection, and the tag context is always the same
    pair of tags. *)
Definition toy_host (open_tag close_tag : Region) : Host :=
  {| get_caret := fun v => match sel v with r :: _ => a r | [] => 0 end;
     from_pos := fun _ _ => py "html";
     is_html := fun _ => true;
     is_xml := fun _ => false;
     get_tag_context := fun _ _ _ =>
       Some (mkTagContext (Some open_tag) (Some close_tag));
     show := fun v _ => visible_region v |}.

(** The text [<a></a>] with the caret at [pos], nothing of the open tag
    visible, the preview setting on, and nothing drawn or recorded. *)
Definition page (pos : Z) : State :=
  mkState (mkView 7 (py "<a></a>") [mkRegion pos pos] (mkRegion 3 7) true)
    [] ∅ ∅.

End GoToTagPair.

(** ** A concrete host

    A small editor to run the handlers on: the config records whether the
    context was captured, the grammar is a toy one that rejects every text
    with a closing parenthesis, and extraction finds the single letter before
    the caret. *)

Definition toy_parse_error (text : pystr) (cfg : bool) : option pystr :=
  if existsb (is_char ")") text then Some (py "unexpected character")
  else None.

Definition toy_extract (v : View) (pos : Z) (cfg : bool) : option Extracted :=
  match buffer v !! Z.to_nat (pos - 1) with
  | Some c =>
      if (1 <=? pos) && is_letter c
      then Some (mkExtracted (pos - 1) pos (pos - 1))
      else None
  | None => None
  end.

Definition toy_caret (v : View) : Z :=
  match sel v with
  | r :: _ => b r
  | [] => 0
  end.

Definition toy_replace (e : Editor bool) (r : Region) (snippet : pystr)
  : Editor bool :=
  let v := view e in
  let text :=
    take (Z.to_nat (begin r)) (buffer v) ++ snippet
    ++ drop (Z.to_nat (end_ r)) (buffer v) in
  mkEditor (mkView (view_id v) text (sel v) (is_widget v) (marked v))
    (trackers e).

Definition toy_host (jsx enabled : bool) : Host bool :=
  {| JSX_PREFIX := py "<";
     auto_mark := enabled;
     context_size_limit := 0;
     default_config := false;
     get_options := fun _ _ with_context => with_context;
     extract_abbreviation := toy_extract;
     has_context := fun cfg => cfg;
     attach_context := fun _ _ _ => true;
     expand := fun text _ => py "<" ++ text ++ py "/>";
     parse_error := toy_parse_error;
     in_activation_scope := fun _ _ => true;
     is_jsx_at := fun _ _ => jsx;
     get_caret := toy_caret;
     replace_with_snippet := toy_replace;
     handle_change := fun e => (get_tracker e, e) |}.

(** A code view with the given text and the caret at [pos]. *)
Definition code_view (text : string) (pos : Z) : View :=
  mkView 1 (py text) [mkRegion pos pos] false [].

Definition fresh_editor (text : string) (pos : Z) : Editor bool :=
  mkEditor (code_view text pos) ∅.

(** An editor whose view has the given tracker registered. *)
Definition tracked_editor (text : string) (pos : Z)
    (trk : RegionTracker bool) : Editor bool :=
  mkEditor (code_view text pos) {[ 1 := trk ]}.

(** The tracker of a JSX view over the text [<d()], caret between the
    parentheses: the marker is stripped, the grammar rejects the rest. *)
Definition jsx_tracker : RegionTracker bool :=
  mkTracker (mkRegion 8 12)
    (Some (mkAbbreviation (py "d()") (Some (py "unexpected character"))))
    false 1 false false.

(** A forced tracker over the same text. *)
Definition forced_tracker : RegionTracker bool :=
  mkTracker (mkRegion 0 3)
    (Some (mkAbbreviation (py "d()") (Some (py "unexpected character"))))
    true 0 false false.

(** The tracker that typing an opening parenthesis after the marker starts
    in a JSX view with the text [<()]: the closer is swallowed, the marker
    stripped, and the grammar rejects what is left. *)
Definition jsx_paren_tracker : RegionTracker bool :=
  mkTracker (mkRegion 0 3)
    (Some (mkAbbreviation (py "()") (Some (py "unexpected character"))))
    false 1 false false.

(** The same outside JSX, after a space. *)
Definition paren_tracker : RegionTracker bool :=
  mkTracker (mkRegion 1 3)
    (Some (mkAbbreviation (py "()") (Some (py "unexpected character"))))
    false 0 false false.

(** A valid tracker over the first letter of a text. *)
Definition letter_tracker : RegionTracker bool :=
  mkTracker (mkRegion 0 1) (Some (mkAbbreviation (py "a") None))
    false 0 false false.

(** The view of [code_view] with the span [r] marked and [trk]
    registered. *)
Definition marked_editor (text : string) (pos : Z) (r : Region)
    (trk : RegionTracker bool) : Editor bool :=
  mkEditor (mkView 1 (py text) [mkRegion pos pos] false [r]) {[ 1 := trk ]}.

(** A listener that recorded the caret [pos] for the view. *)
Definition listener_at (pos : Z) : Listener :=
  mkListener {[ 1 := pos ]} false.

(** The letter [d] and a line feed. *)
Definition d_newline : string := String "d" (String "010" EmptyString).

(** The remaining collaborators of the concrete host: configs carry no
    prefix, and a selection change leaves the tracker as it is. *)
Definition toy_listener_host : ListenerHost bool :=
  {| config_prefix := fun _ => [];
     tab_expand := true;
     handle_selection_change := fun e => (get_tracker e, e) |}.

(** A non-forced tracker over the whole text [d()], which the grammar
    rejected. *)
Definition whole_text_tracker : RegionTracker bool :=
  mkTracker (mkRegion 0 3)
    (Some (mkAbbreviation (py "d()") (Some (py "unexpected character"))))
    false 0 false false.

(** A listener with a completions request pending. *)
Definition pending_listener : Listener := mkListener ∅ true.

(** The tracker that a suggestion starts over the last letter of [a b c],
    with the context captured. *)
Definition suggested_tracker : RegionTracker bool :=
  mkTracker (mkRegion 4 5) (Some (mkAbbreviation (py "c") None))
    false 0 true false.

(** A view whose marker outlived its tracker, as after an undo. *)
Definition undone_editor : Editor bool :=
  mkEditor (mkView 1 (py "a b c") [mkRegion 1 1] false [mkRegion 0 1]) ∅.

(** The tracker over a line feed that typing Enter behind [d] starts. *)
Definition line_feed_tracker : RegionTracker bool :=
  mkTracker (mkRegion 1 2) (Some (mkAbbreviation [LF] None))
    false 0 false false.

(** ** Properties *)

Section Properties.

Context {Config : Type} {host : Host Config}.

(** The closers of [pairs] are the three closing brackets. *)
Lemma in_values_pairs (c : N) :
  in_values c (pairs_values pairs) = is_closer c.
Proof.
  unfold in_values, pairs_values, pairs, is_closer, is_char. simpl.
  now rewrite orb_false_r, orb_assoc.
Qed.

(** A non-negative index reads the list or raises. *)
Lemma py_index_nat (s : pystr) (n : nat) :
  py_index s (Z.of_nat n)
  = match s !! n with
    | Some c => Ok c
    | None => Raise IndexError
    end.
Proof.
  assert ((Z.of_nat n <? 0) = false) as Hneg by (apply Z.ltb_ge; lia).
  unfold py_index. rewrite Hneg. cbv zeta. now rewrite Hneg, Nat2Z.id.
Qed.

(** More fuel than the distance to [start] changes nothing: the loop has
    stopped by then. *)
Lemma walk_back_fuel (fuel : nat) (s : pystr) (vs : list N) (start target : Z) :
  (Z.to_nat (target - start) <= fuel)%nat ->
  walk_back fuel s vs start target
  = walk_back (Z.to_nat (target - start)) s vs start target.
Proof.
  revert target. induction fuel as [|fuel IH]; intros target Hle.
  - replace (Z.to_nat (target - start)) with O by lia. reflexivity.
  - simpl. destruct (target >? start) eqn:Hgt.
    + assert (Z.to_nat (target - start)
              = S (Z.to_nat (target - 1 - start))) as -> by lia.
      simpl. rewrite Hgt.
      destruct (py_index s (target - start - 1)) as [c|x]; simpl; [|done].
      destruct (in_values c vs); [|done].
      apply IH. lia.
    + replace (Z.to_nat (target - start)) with O by lia. reflexivity.
Qed.

(** On a text that fills the region the loop returns, at the start of the
    run of closers that ends the text. *)
Lemma walk_back_run (n : nat) (s : pystr) (start : Z) :
  (n <= length s)%nat ->
  walk_back n s (pairs_values pairs) start (start + Z.of_nat n)
  = Ok (start + Z.of_nat n
        - Z.of_nat (run_length is_closer (rev (take n s)))).
Proof.
  induction n as [|n IH]; intros Hn.
  - simpl. f_equal. lia.
  - cbn [walk_back].
    replace (start + Z.of_nat (S n) >? start) with true
      by (symmetry; apply Z.gtb_lt; lia).
    replace (start + Z.of_nat (S n) - start - 1) with (Z.of_nat n) by lia.
    destruct (lookup_lt_is_Some_2 s n ltac:(lia)) as [c Hc].
    rewrite py_index_nat, Hc. cbn [bind_result].
    rewrite (take_S_r _ _ _ Hc), rev_app_distr. cbn [rev app run_length].
    rewrite in_values_pairs.
    destruct (is_closer c).
    + replace (start + Z.of_nat (S n) - 1) with (start + Z.of_nat n) by lia.
      rewrite IH by lia. f_equal. lia.
    + f_equal. lia.
Qed.

(** The loop as [should_stop_tracking] runs it, when the text is as long as
    the region. *)
Lemma walk_back_region (s : pystr) (start stop : Z) :
  Z.of_nat (length s) = stop - start ->
  walk_back (Z.to_nat (stop - start)) s (pairs_values pairs) start stop
  = Ok (stop - Z.of_nat (trailing_closers s)).
Proof.
  intros Hlen.
  replace (Z.to_nat (stop - start)) with (length s) by lia.
  replace stop with (start + Z.of_nat (length s)) at 1 by lia.
  rewrite walk_back_run by lia.
  rewrite firstn_all. unfold trailing_closers. f_equal. lia.
Qed.

(** Where the abbreviation text is exactly the text of the region (no prefix
    was stripped), the code returns, and what it returns is the decision of
    the spec. *)
Lemma should_stop_tracking_agrees (trk : RegionTracker Config) (pos : Z) :
  (forall ab, abbreviation trk = Some ab ->
     Z.of_nat (length (abbr ab)) = end_ (region trk) - begin (region trk)) ->
  should_stop_tracking trk pos = Ok (spec_should_stop trk pos).
Proof.
  intros Hlen. unfold should_stop_tracking, spec_should_stop.
  destruct (forced trk); [done|].
  destruct (abbreviation trk) as [ab|]; [|done].
  specialize (Hlen ab eq_refl).
  destruct (has_line_break (abbr ab)); [done|].
  destruct (has_error ab); [|done].
  cbn [orb andb]. rewrite (Z.eqb_sym pos (end_ (region trk))).
  destruct (end_ (region trk) =? pos); [done|].
  cbv zeta. rewrite walk_back_region by done.
  cbn [bind_result orb]. now rewrite Z.eqb_sym.
Qed.

(** X1: where the abbreviation text is shorter than the region (a prefix
    was stripped) and the grammar rejected it, the first step of the loop
    reads past the end of the text: for a tracker that is not forced, with no
    line break in the text and the caret away from the end of the region,
    [should_stop_tracking] raises [IndexError]. *)
Lemma should_stop_tracking_short_abbr (trk : RegionTracker Config)
    (ab : Abbreviation) (pos : Z) :
  forced trk = false ->
  abbreviation trk = Some ab ->
  has_line_break (abbr ab) = false ->
  has_error ab = true ->
  end_ (region trk) <> pos ->
  Z.of_nat (length (abbr ab)) < end_ (region trk) - begin (region trk) ->
  should_stop_tracking trk pos = Raise IndexError.
Proof.
  intros Hf Hab Hnl Herr Hpos Hshort.
  unfold should_stop_tracking. rewrite Hf, Hab, Hnl, Herr.
  assert ((end_ (region trk) =? pos) = false) as -> by (apply Z.eqb_neq; done).
  cbv zeta.
  set (stop := end_ (region trk)) in *. set (start := begin (region trk)) in *.
  destruct (Z.to_nat (stop - start)) as [|fuel] eqn:Hfuel; [lia|].
  cbn [walk_back].
  assert ((stop >? start) = true) as -> by (apply Z.gtb_lt; lia).
  replace (stop - start - 1) with (Z.of_nat (Z.to_nat (stop - start - 1)))
    by lia.
  rewrite py_index_nat, lookup_ge_None_2 by lia. reflexivity.
Qed.

(** C1: a forced tracker is never auto-terminated. For a tracker with
    [forced] set, [should_stop_tracking] returns [False] at every caret
    position, whatever the abbreviation; and an edit that leaves such a
    tracker behind ends with that tracker still registered: [on_modified]
    records the caret and stops nothing. *)
Theorem forced_tracker_never_stops (trk : RegionTracker Config) :
  forced trk = true ->
  (forall pos, should_stop_tracking trk pos = Ok false)
  /\ (forall l e e1,
        is_widget (view e) = false ->
        handle_change e = (Some trk, e1) ->
        on_modified l e
        = Done (mkListener
                  (<[view_id (view e) := get_caret (view e)]>
                     (last_pos_tracker l))
                  (pending_completions_request l))
            e1).
Proof.
  intros Hf.
  assert (forall pos, should_stop_tracking trk pos = Ok false) as Hkeep.
  { intros pos. unfold should_stop_tracking. now rewrite Hf. }
  split; [exact Hkeep|].
  intros l e e1 Hw Hch.
  unfold on_modified, main_view, on_modified_body.
  rewrite Hw, Hch. cbn [negb]. now rewrite Hkeep.
Qed.

(** *** The start heuristic *)

Lemma take_2_drop (l : pystr) (n : nat) :
  take 2 (drop n l)
  = match l !! n, l !! S n with
    | Some x, Some y => [x; y]
    | Some x, None => [x]
    | None, _ => []
    end.
Proof.
  rewrite <- (Nat.add_0_r n) at 2. rewrite <- (Nat.add_1_r n).
  rewrite <- !lookup_drop.
  now destruct (drop n l) as [|x [|y r]].
Qed.

(** The prefix is made of the characters before the caret that exist. *)
Lemma prefix_at_chars (v : View) (pos : Z) :
  prefix_at v pos
  = match char_before v (pos - 1), char_before v pos with
    | Some x, Some y => [x; y]
    | Some x, None => [x]
    | None, Some y => [y]
    | None, None => []
    end.
Proof.
  unfold prefix_at, substr, begin, end_, char_before. cbn [a b].
  destruct (Z.le_gt_cases 2 pos) as [Hpos|Hpos].
  - rewrite (Z.max_r 0), Z.min_l, Z.max_r by lia.
    assert ((1 <=? pos - 1) = true) as -> by (apply Z.leb_le; lia).
    assert ((1 <=? pos) = true) as -> by (apply Z.leb_le; lia).
    replace (Z.to_nat pos - Z.to_nat (pos - 2))%nat with 2%nat by lia.
    replace (Z.to_nat (pos - 1 - 1)) with (Z.to_nat (pos - 2)) by lia.
    replace (Z.to_nat (pos - 1)) with (S (Z.to_nat (pos - 2))) by lia.
    rewrite take_2_drop.
    destruct (buffer v !! Z.to_nat (pos - 2)) eqn:H0; [done|].
    rewrite (lookup_ge_None_2 (buffer v) (S _)); [done|].
    apply lookup_ge_None_1 in H0. lia.
  - rewrite (Z.max_l 0) by lia.
    assert ((1 <=? pos - 1) = false) as -> by (apply Z.leb_gt; lia).
    destruct (Z.le_gt_cases 1 pos) as [H1|H1].
    + assert (pos = 1) as -> by lia. cbn.
      now destruct (buffer v) as [|x r].
    + assert ((1 <=? pos) = false) as -> by (apply Z.leb_gt; lia).
      replace (Z.to_nat (Z.max 0 pos) - Z.to_nat (Z.min 0 pos))%nat
        with 0%nat by lia.
      reflexivity.
Qed.

(** [s[-1]] is the last character, and raises on the empty string only. *)
Lemma py_last_last (s : pystr) :
  py_last s
  = match last s with
    | Some c => Ok c
    | None => Raise IndexError
    end.
Proof.
  unfold py_last, py_index. cbn [Z.ltb Z.compare].
  destruct s as [|c s]; [reflexivity|].
  assert ((-1 + Z.of_nat (length (c :: s)) <? 0) = false) as ->
    by (apply Z.ltb_ge; cbn [length]; lia).
  rewrite last_lookup.
  replace (Z.to_nat (-1 + Z.of_nat (length (c :: s))))
    with (Nat.pred (length (c :: s))) by (cbn [length]; lia).
  now destruct (_ !! _).
Qed.

(** The character after the caret, as the bracket rule reads it. *)
Lemma next_char_is (v : View) (pos : Z) (c : N) :
  substr v (mkRegion pos (Z.min (pos + 1) (size v))) = [c]
  <-> char_after v pos = Some c.
Proof.
  unfold substr, begin, end_, char_after, size. cbn [a b].
  set (buf := buffer v).
  destruct (Z.le_gt_cases 0 pos) as [Hpos|Hpos].
  - assert ((0 <=? pos) = true) as -> by (apply Z.leb_le; lia).
    destruct (Z.le_gt_cases (Z.of_nat (length buf)) pos) as [Hge|Hlt].
    + rewrite (Z.min_r (pos + 1)) by lia.
      rewrite Z.min_r, Z.max_l by lia.
      rewrite drop_ge by lia. rewrite take_nil.
      rewrite lookup_ge_None_2 by lia. split; discriminate.
    + rewrite (Z.min_l (pos + 1)) by lia.
      rewrite Z.min_l, Z.max_r by lia.
      replace (Z.to_nat (pos + 1) - Z.to_nat pos)%nat with 1%nat by lia.
      rewrite <- (Nat.add_0_r (Z.to_nat pos)) at 2.
      rewrite <- lookup_drop.
      destruct (drop (Z.to_nat pos) buf) as [|x r]; cbn.
      * split; discriminate.
      * rewrite take_0. split; congruence.
  - assert ((0 <=? pos) = false) as -> by (apply Z.leb_gt; lia).
    rewrite (Z.min_l (pos + 1)) by lia.
    replace (Z.to_nat (Z.max pos (pos + 1)) - Z.to_nat (Z.min pos (pos + 1)))%nat
      with 0%nat by lia.
    split; discriminate.
Qed.

Lemma char_before_Some (v : View) (pos : Z) (c : N) :
  char_before v pos = Some c ->
  1 <= pos /\ buffer v !! Z.to_nat (pos - 1) = Some c.
Proof.
  unfold char_before. destruct (Z.leb_spec 1 pos); [done|discriminate].
Qed.

(** A caret with a character before it that does not exist has none after
    it either. *)
Lemma char_after_None (v : View) (pos : Z) :
  1 <= pos -> char_before v pos = None -> char_after v pos = None.
Proof.
  unfold char_before, char_after. intros Hpos.
  assert ((1 <=? pos) = true) as -> by (apply Z.leb_le; lia).
  assert ((0 <=? pos) = true) as -> by (apply Z.leb_le; lia).
  intros Hb%lookup_ge_None_1. apply lookup_ge_None_2. lia.
Qed.

Lemma prefix_at_nonempty (v : View) (pos : Z) :
  prefix_at v pos <> [] -> 1 <= pos.
Proof.
  rewrite prefix_at_chars.
  destruct (char_before v (pos - 1)) eqn:H1.
  - apply char_before_Some in H1. lia.
  - destruct (char_before v pos) eqn:H2; [|done].
    apply char_before_Some in H2. lia.
Qed.

(** A prefix of two characters is the two characters before the caret. *)
Lemma prefix_at_two (v : View) (pos : Z) (c0 c1 : N) :
  prefix_at v pos = [c0; c1]
  <-> 2 <= pos /\ char_before v (pos - 1) = Some c0
      /\ char_before v pos = Some c1.
Proof.
  rewrite prefix_at_chars. split.
  - destruct (char_before v (pos - 1)) eqn:H1;
      destruct (char_before v pos) eqn:H2; try discriminate.
    apply char_before_Some in H1. intros [= -> ->]. repeat split; lia.
  - now intros (_ & -> & ->).
Qed.

(** The code's bracket test, on the last character of the prefix and the
    text after the caret, is the bracket rule on the characters around the
    caret. *)
Lemma end_swallow (v : View) (pos : Z) (last_ch : N) :
  last (prefix_at v pos) = Some last_ch ->
  match pairs_get pairs last_ch with
  | Some closer =>
      if bool_decide
           (substr v (mkRegion pos (Z.min (pos + 1) (size v))) = [closer])
      then pos + 1 else pos
  | None => pos
  end
  = if closer_follows v pos then pos + 1 else pos.
Proof.
  intros Hlast. unfold closer_follows.
  assert (1 <= pos) as Hpos.
  { apply (prefix_at_nonempty v). intros Hnil. now rewrite Hnil in Hlast. }
  rewrite prefix_at_chars in Hlast.
  destruct (char_before v pos) as [y|] eqn:Hb.
  - assert (y = last_ch) as ->.
    { destruct (char_before v (pos - 1)); cbn in Hlast; congruence. }
    destruct (pairs_get pairs last_ch) as [closer|].
    + case_bool_decide as Hnext.
      * apply next_char_is in Hnext. rewrite Hnext.
        now rewrite bool_decide_eq_true_2.
      * destruct (char_after v pos) as [c|] eqn:Ha; [|done].
        rewrite bool_decide_eq_false_2; [done|].
        intros [= ->]. apply Hnext, next_char_is, Ha.
    + destruct (char_after v pos); [|done].
      now rewrite bool_decide_eq_false_2.
  - destruct (pairs_get pairs last_ch) as [closer|]; [|done].
    rewrite bool_decide_eq_false_2; [done|].
    intros Hnext. apply (proj1 (next_char_is v pos closer)) in Hnext.
    now rewrite char_after_None in Hnext.
Qed.

(** [start_abbreviation_tracking] never raises. When its test fails it
    leaves the editor alone and returns none; when the test holds it starts
    a tracker from [pos - 2] with the marker as offset (JSX) or from
    [pos - 1] (elsewhere), up to the caret or one past it by the bracket
    rule. *)
Lemma start_abbreviation_tracking_result (e : Editor Config) (pos : Z) :
  start_abbreviation_tracking e pos
  = if starts_tracking (view e) pos then
      let jsx := is_jsx_at (view e) pos in
      let start := if jsx then pos - 2 else pos - 1 in
      let off := if jsx then Z.of_nat (length JSX_PREFIX) else 0 in
      let end1 := if closer_follows (view e) pos then pos + 1 else pos in
      let with_context :=
        (context_size_limit >? 0) && (size (view e) <? context_size_limit) in
      let cfg := get_options (view e) start with_context in
      Done (Some (start_tracking e start end1 false off cfg).1)
        (start_tracking e start end1 false off cfg).2
    else Done None e.
Proof.
  unfold start_abbreviation_tracking, starts_tracking. cbv zeta.
  set (v := view e). set (prefix := prefix_at v pos).
  assert (forall start off,
            0 <= start -> prefix <> [] ->
            (if start >=? 0 then
               match py_last prefix with
               | Raise x => Crashed x e
               | Ok last_ch =>
                   let end1 :=
                     match pairs_get pairs last_ch with
                     | Some closer =>
                         if bool_decide
                              (substr v (mkRegion pos
                                           (Z.min (pos + 1) (size v)))
                               = [closer])
                         then pos + 1 else pos
                     | None => pos
                     end in
                   let '(trk, e') :=
                     start_tracking e start end1 false off
                       (get_options v start
                          ((context_size_limit >? 0)
                           && (size v <? context_size_limit))) in
                   Done (Some trk) e'
               end
             else Done None e)
            = Done
                (Some (start_tracking e start
                         (if closer_follows v pos then pos + 1 else pos)
                         false off
                         (get_options v start
                            ((context_size_limit >? 0)
                             && (size v <? context_size_limit)))).1)
                (start_tracking e start
                   (if closer_follows v pos then pos + 1 else pos)
                   false off
                   (get_options v start
                      ((context_size_limit >? 0)
                       && (size v <? context_size_limit)))).2) as Hgo.
  { intros start off Hstart Hne.
    assert ((start >=? 0) = true) as -> by (apply Z.geb_le; lia).
    rewrite py_last_last.
    destruct (last prefix) as [last_ch|] eqn:Hlast.
    - cbv zeta. rewrite (end_swallow v pos last_ch Hlast). reflexivity.
    - apply last_None in Hlast. done. }
  destruct (is_jsx_at v pos).
  - destruct (jsx_prefixed prefix) eqn:Hp; [|reflexivity].
    unfold jsx_prefixed in Hp.
    destruct prefix as [|c0 [|c1 [|]]] eqn:Hpre; try discriminate.
    apply prefix_at_two in Hpre as (Hpos & _ & _).
    apply Hgo; [lia|done].
  - destruct (re_word_bound prefix) eqn:Hp; [|reflexivity].
    assert (prefix <> []) as Hne by (intros Hnil; now rewrite Hnil in Hp).
    apply Hgo; [|done].
    pose proof (prefix_at_nonempty v pos Hne). lia.
Qed.

(** What a tracker that [start_tracking] returns looks like. *)
Lemma start_tracking_fields (e : Editor Config) (start stop off : Z)
    (f : bool) (cfg : Config) :
  let trk := (start_tracking e start stop f off cfg).1 in
  let e' := (start_tracking e start stop f off cfg).2 in
  region trk = mkRegion start stop /\ forced trk = f /\ offset trk = off
  /\ get_tracker e' = Some trk
  /\ (forall ab, abbreviation trk = Some ab ->
        abbr ab = drop (Z.to_nat off) (substr (view e) (region trk))).
Proof.
  cbn. unfold get_tracker. cbn. rewrite lookup_insert_eq.
  repeat split. intros ab. unfold parse_abbreviation.
  destruct (drop _ _) eqn:Hd; [discriminate|]. now intros [= <-].
Qed.

(** From [H : Done (Some (start_tracking ..).1) (..).2 = Done (Some trk) e'],
    the fields of [trk] and [e'] as [HF]. *)
Ltac started H HF :=
  match type of H with
  | context [start_tracking ?e ?s ?t ?f ?o ?c] =>
      pose proof (start_tracking_fields e s t o f c) as HF;
      cbv zeta in HF;
      let st := fresh "st" in
      let Hst := fresh "Hst" in
      remember (start_tracking e s t f o c) as st eqn:Hst;
      clear Hst; injection H as <- <-
  end.

Lemma jsx_prefixed_marker (v : View) (pos : Z) :
  jsx_prefixed (prefix_at v pos) = true <-> jsx_marker_before v pos.
Proof.
  unfold jsx_prefixed, jsx_marker_before. split.
  - destruct (prefix_at v pos) as [|c0 [|c1 [|]]] eqn:Hpre; try discriminate.
    apply prefix_at_two in Hpre as (Hpos & H0 & H1).
    intros [Hm Hc]%andb_prop. apply bool_decide_eq_true_1 in Hm.
    exists c0, c1. unfold re_jsx_abbr_start in Hc. cbn in Hc.
    rewrite andb_true_r in Hc. done.
  - intros (m & c & Hpos & H0 & H1 & Hm & Hc).
    rewrite (proj2 (prefix_at_two v pos m c)) by done.
    rewrite bool_decide_eq_true_2 by done.
    unfold re_jsx_abbr_start. cbn. now rewrite Hc.
Qed.

(** C4: the JSX entry rule. In a JSX-like dialect
    [start_abbreviation_tracking] creates a tracker exactly when the two
    characters before [pos] are the prefix marker and a character of
    [[A-Za-z.#[(]], and returns none, leaving the editor alone, otherwise;
    the tracker it creates is registered, its region begins at [pos - 2] and
    its offset is the length of the marker, so that the parsed text is the
    region's text without the marker. *)
Theorem start_abbreviation_tracking_jsx (e : Editor Config) (pos : Z) :
  is_jsx_at (view e) pos = true ->
  ((exists trk e', start_abbreviation_tracking e pos = Done (Some trk) e')
   <-> jsx_marker_before (view e) pos)
  /\ (~ jsx_marker_before (view e) pos ->
      start_abbreviation_tracking e pos = Done None e)
  /\ (forall trk e',
        start_abbreviation_tracking e pos = Done (Some trk) e' ->
        begin (region trk) = pos - 2
        /\ offset trk = Z.of_nat (length JSX_PREFIX)
        /\ get_tracker e' = Some trk
        /\ (forall ab, abbreviation trk = Some ab ->
              abbr ab
              = drop (length JSX_PREFIX) (substr (view e) (region trk)))).
Proof.
  intros Hjsx. rewrite start_abbreviation_tracking_result.
  unfold starts_tracking. rewrite Hjsx. cbv zeta.
  rewrite <- jsx_prefixed_marker.
  destruct (jsx_prefixed (prefix_at (view e) pos)).
  - split; [|split].
    + split; [done|]. intros _. eauto.
    + intros Hn. now destruct Hn.
    + intros trk e' Heq. started Heq HF.
      destruct HF as (Hr & _ & Ho & Hg & Hab).
      rewrite Nat2Z.id in Hab. repeat split; try done.
      rewrite Hr. unfold begin. cbn [a b].
      destruct (closer_follows (view e) pos); lia.
  - split; [|split].
    + split; [|done]. now intros (trk & e' & [=]).
    + done.
    + now intros trk e' [=].
Qed.

(** X3: the entry rule outside JSX, for a caret inside the text: the
    pattern accepts the prefix exactly when a start character stands before
    the caret at the start of the text or after a boundary character, or when
    a start character is followed by a line feed; the tracker is registered,
    its region begins at [pos - 1] and its offset is 0. *)
Lemma start_abbreviation_tracking_word_bound (e : Editor Config) (pos : Z) :
  is_jsx_at (view e) pos = false ->
  pos <= size (view e) ->
  ((exists trk e', start_abbreviation_tracking e pos = Done (Some trk) e')
   <-> word_start_before (view e) pos \/ line_feed_after_start (view e) pos)
  /\ (forall trk e',
        start_abbreviation_tracking e pos = Done (Some trk) e' ->
        begin (region trk) = pos - 1 /\ offset trk = 0
        /\ get_tracker e' = Some trk).
Proof.
  intros Hjsx Hsize. rewrite start_abbreviation_tracking_result.
  unfold starts_tracking. rewrite Hjsx. cbv zeta. split.
  - transitivity (re_word_bound (prefix_at (view e) pos) = true).
    { destruct (re_word_bound _); split; eauto; try done.
      now intros (trk & e' & [=]). }
    rewrite prefix_at_chars.
    unfold word_start_before, line_feed_after_start, re_word_bound.
    destruct (char_before (view e) (pos - 1)) as [x|] eqn:H1;
      destruct (char_before (view e) pos) as [y|] eqn:H2.
    + apply char_before_Some in H1 as [Hpos _]. cbn [at_dollar].
      rewrite andb_true_r. split.
      * intros [[Hx Hy]%andb_prop|[Hx Hy]%andb_prop]%orb_prop.
        -- left. exists y. eauto 10.
        -- right. exists x. apply N.eqb_eq in Hy as ->. done.
      * intros [(c & [= <-] & Hc & [?|(w & [= <-] & Hw)])
               |(c & [= <-] & Hc & [= ->])]; [lia| |].
        -- now rewrite Hw, Hc.
        -- rewrite Hc. cbn. apply orb_true_r.
    + apply char_before_Some in H1 as [Hpos _].
      unfold char_before in H2.
      assert ((1 <=? pos) = true) as Hle by (apply Z.leb_le; lia).
      rewrite Hle in H2. apply lookup_ge_None_1 in H2.
      unfold size in Hsize. lia.
    + assert (pos = 1) as ->.
      { apply char_before_Some in H2 as [Hpos _].
        unfold char_before in H1. destruct (Z.leb_spec 1 (pos - 1)); [|lia].
        apply lookup_ge_None_1 in H1. unfold size in Hsize. lia. }
      cbn [at_dollar]. rewrite andb_false_r, andb_true_r, orb_false_l. split.
      * intros Hy. left. exists y. eauto.
      * intros [(c & [= <-] & Hc & _)|(c & [=] & _)]. done.
    + split; [done|]. now intros [(c & [=] & _)|(c & [=] & _)].
  - destruct (re_word_bound _); [|now intros trk e' [=]].
    intros trk e' Heq. started Heq HF.
    destruct HF as (Hr & _ & Ho & Hg & _).
    repeat split; try done.
    rewrite Hr. unfold begin. cbn [a b].
    destruct (closer_follows (view e) pos); lia.
Qed.

(** C6: the bracket rule. Whenever [start_abbreviation_tracking] starts a
    tracker, in either dialect, the region ends one past the caret when the
    character before the caret is an opening bracket of [pairs] and the
    character after the caret is its closer, and at the caret in every other
    case. *)
Theorem start_abbreviation_tracking_end (e e' : Editor Config) (pos : Z)
    (trk : RegionTracker Config) :
  start_abbreviation_tracking e pos = Done (Some trk) e' ->
  end_ (region trk)
  = if closer_follows (view e) pos then pos + 1 else pos.
Proof.
  rewrite start_abbreviation_tracking_result.
  destruct (starts_tracking (view e) pos); [|discriminate].
  cbv zeta. intros Heq. started Heq HF. destruct HF as (Hr & _).
  rewrite Hr. unfold end_. cbn [a b].
  destruct (is_jsx_at (view e) pos), (closer_follows (view e) pos); lia.
Qed.

(** *** Suggestion, expansion and forced mode *)

Lemma get_tracker_stop_tracking (e : Editor Config) :
  get_tracker (stop_tracking e) = None.
Proof. unfold get_tracker, stop_tracking. cbn. apply lookup_delete_eq. Qed.

Lemma buffer_stop_tracking (e : Editor Config) :
  buffer (view (stop_tracking e)) = buffer (view e)
  /\ sel (view (stop_tracking e)) = sel (view e).
Proof. done. Qed.

(** C7, amended: [suggest_abbreviation_tracker] behind its gate. Where
    tracking is not allowed at [pos] the call changes nothing and returns
    none. Where it is allowed: a tracker whose region does not contain [pos]
    is stopped, and from the state without tracker (the stopped one, or the
    editor as it was when the view had no tracker) an extracted abbreviation
    gives a new registered tracker over the extracted range, with offset
    [location - start], which is returned, and a failed extraction gives
    none and creates nothing. *)
Theorem suggest_abbreviation_tracker_gated (e : Editor Config) (pos : Z) :
  (allow_tracking (view e) pos = false ->
   suggest_abbreviation_tracker e pos = (None, e))
  /\ (allow_tracking (view e) pos = true ->
      (forall t, get_tracker e = Some t -> contains (region t) pos = false ->
         get_tracker (stop_tracking e) = None
         /\ suggests_from e (stop_tracking e) pos)
      /\ (get_tracker e = None -> suggests_from e e pos)).
Proof.
  split.
  - intros Hno. unfold suggest_abbreviation_tracker. now rewrite Hno.
  - intros Hyes.
    assert (forall e1,
              (get_tracker e = None /\ e1 = e
               \/ exists t, get_tracker e = Some t
                            /\ contains (region t) pos = false
                            /\ e1 = stop_tracking e) ->
              get_tracker e1 = None ->
              suggests_from e e1 pos) as Hfrom.
    { intros e1 Hcase Hnone. unfold suggests_from.
      assert (suggest_abbreviation_tracker e pos
              = match extract_abbreviation (view e1) pos
                        (get_options (view e1) pos true) with
                | Some ab =>
                    (Some (start_tracking e1 (ex_start ab) (ex_end ab) false
                             (ex_location ab - ex_start ab)
                             (get_options (view e1) pos true)).1,
                     (start_tracking e1 (ex_start ab) (ex_end ab) false
                        (ex_location ab - ex_start ab)
                        (get_options (view e1) pos true)).2)
                | None => (None, e1)
                end) as ->.
      { unfold suggest_abbreviation_tracker. rewrite Hyes. cbn [negb].
        destruct Hcase as [[-> ->]|(t & -> & -> & ->)]; cbn [negb];
          now destruct (extract_abbreviation _ _ _). }
      destruct (extract_abbreviation _ _ _) as [ab|]; [|done].
      match goal with
      | |- context [start_tracking ?e0 ?s ?t ?f ?o ?c] =>
          destruct (start_tracking_fields e0 s t o f c)
            as (Hr & Hf & Ho & Hg & _)
      end.
      eauto 10. }
    split.
    + intros t Ht Hc. split; [apply get_tracker_stop_tracking|].
      apply Hfrom; [eauto 10|apply get_tracker_stop_tracking].
    + intros Hnone. apply Hfrom; eauto.
Qed.

(** C8: the expand command. With a tracker registered whose region contains
    the caret, [EmmetExpandAbbreviation.run] returns and leaves the view
    without tracker in every case. With an abbreviation that has no error it
    replaces the region by the expansion of the abbreviation text (under the
    config, with the context attached when it was missing) before it stops
    the tracker; with no abbreviation or a rejected one it only stops the
    tracker, so the text of the view is as it was. *)
Theorem expand_abbreviation_stops (e : Editor Config)
    (trk : RegionTracker Config) :
  get_tracker e = Some trk ->
  contains (region trk) (get_caret (view e)) = true ->
  exists e',
    EmmetExpandAbbreviation_run e = Done tt e'
    /\ get_tracker e' = None
    /\ match abbreviation trk with
       | Some ab =>
           if has_error ab
           then e' = stop_tracking e /\ buffer (view e') = buffer (view e)
           else
             exists e1 cfg,
               expand_abbreviation e trk = Done (expand (abbr ab) cfg) e1
               /\ cfg = (if has_context (config trk) then config trk
                         else attach_context (view e) (begin (region trk))
                                (config trk))
               /\ view e1 = view e
               /\ e' = stop_tracking
                         (replace_with_snippet e1 (region trk)
                            (expand (abbr ab) cfg))
       | None => e' = stop_tracking e /\ buffer (view e') = buffer (view e)
       end.
Proof.
  intros Ht Hc. unfold EmmetExpandAbbreviation_run. rewrite Ht, Hc.
  destruct (abbreviation trk) as [ab|] eqn:Hab.
  - destruct (has_error ab); cbn [negb].
    + eexists. split; [reflexivity|].
      split; [apply get_tracker_stop_tracking|done].
    + unfold expand_abbreviation. rewrite Hab.
      destruct (has_context (config trk)); cbn [negb];
        (eexists; split; [reflexivity|];
         split; [apply get_tracker_stop_tracking|]; eauto 10).
  - eexists. split; [reflexivity|].
    split; [apply get_tracker_stop_tracking|done].
Qed.

(** C9: when a new session can start from [on_modified]. Unless the caret
    recorded for the view is the new caret minus one, the handler starts no
    tracker: the editor it leaves behind, whether it returns or raises, is
    the editor as it was (a widget), the one [handle_change] produced, or
    that one with its tracker stopped. *)
Theorem on_modified_starts_after_insert_only (l : Listener)
    (e : Editor Config) :
  last_pos_tracker l !! view_id (view e) <> Some (get_caret (view e) - 1) ->
  final (on_modified l e) = e
  \/ final (on_modified l e) = (handle_change e).2
  \/ final (on_modified l e) = stop_tracking (handle_change e).2.
Proof.
  intros Hlast. unfold on_modified, main_view, on_modified_body.
  destruct (is_widget (view e)); cbn [negb]; [now left|]. right.
  destruct (handle_change e) as [trk e1]. cbn [snd].
  assert (forall (started : option (RegionTracker Config)) (l' : Listener),
            let o : outcome Config Listener :=
              match started with
              | Some t =>
                  match should_stop_tracking t (get_caret (view e)) with
                  | Ok true => Done l' (stop_tracking e1)
                  | Ok false => Done l' e1
                  | Raise x => Crashed x e1
                  end
              | None => Done l' e1
              end in
            final o = e1 \/ final o = stop_tracking e1) as Hstop.
  { intros [t|] l'; cbn; [|now left].
    destruct (should_stop_tracking t _) as [[|]|x]; cbn; eauto. }
  destruct trk as [t|]; [exact (Hstop (Some t) _)|].
  destruct (last_pos_tracker l !! view_id (view e)) as [last|] eqn:Hl;
    [|exact (Hstop None _)].
  destruct (Z.eqb_spec last (get_caret (view e) - 1)) as [->|Hne];
    [done|]. exact (Hstop None _).
Qed.

(** C10: the enter-forced-mode command. The tracker of the view, if any, is
    stopped first. If it was forced the command ends there, with no tracker.
    Otherwise, on a view with a primary selection, it returns with a new
    forced tracker registered over that selection; for a non-empty
    selection the preview of that tracker is shown and the selection becomes
    the single caret at the selection's end, for an empty one the selection
    stays as it was. *)
Theorem enter_abbreviation_toggles (e : Editor Config) :
  (forall t, get_tracker e = Some t -> forced t = true ->
     EmmetEnterAbbreviation_run e = Done tt (stop_tracking e)
     /\ get_tracker (stop_tracking e) = None)
  /\ (forall primary rest,
        (forall t, get_tracker e = Some t -> forced t = false) ->
        sel (view e) = primary :: rest ->
        exists trk e',
          EmmetEnterAbbreviation_run e = Done tt e'
          /\ get_tracker e' = Some trk
          /\ forced trk = true
          /\ region trk = mkRegion (begin primary) (end_ primary)
          /\ offset trk = 0
          /\ buffer (view e') = buffer (view e)
          /\ if empty primary
             then sel (view e') = sel (view e)
             else preview_visible trk = true
                  /\ sel (view e')
                     = [mkRegion (end_ primary) (end_ primary)]).
Proof.
  split.
  - intros t Ht Hf. unfold EmmetEnterAbbreviation_run. rewrite Ht, Hf.
    split; [done|apply get_tracker_stop_tracking].
  - intros primary rest Hnf Hsel. unfold EmmetEnterAbbreviation_run.
    assert (match get_tracker e with
            | Some t => forced t
            | None => false
            end = false) as ->.
    { destruct (get_tracker e) as [t|] eqn:Ht; [now apply Hnf|done]. }
    cbn [stop_tracking view set_marked sel]. rewrite Hsel. cbn [lookup].
    cbn. unfold get_tracker. cbn.
    destruct (empty primary); cbn [negb].
    + eexists _, _. split; [reflexivity|]. cbn.
      rewrite lookup_insert_eq. repeat split; done.
    + eexists _, _. split; [reflexivity|]. cbn.
      rewrite lookup_alter_eq, lookup_insert_eq. cbn. repeat split; done.
Qed.

End Properties.

(** ** Runs on the concrete host *)

(** A forced tracker over a rejected text is kept at the end of its region
    and at the start of its closers. *)
Lemma forced_tracker_never_stops_witness :
  forced forced_tracker = true
  /\ should_stop_tracking forced_tracker 3 = Ok false
  /\ should_stop_tracking forced_tracker 2 = Ok false.
Proof.
  pose proof (forced_tracker_never_stops (host := toy_host false true)
                forced_tracker eq_refl) as [Hkeep _].
  split; [reflexivity|]. split; apply Hkeep.
Defined.

(** C2: [should_stop_tracking] on a non-forced tracker of a JSX view. The
    region [8, 12) holds the marker and [d()], the grammar rejected [d()] and
    the caret is at 11, the start of the run of closers: the spec's decision
    is to stop, the code raises [IndexError] from the backward walk. *)
Theorem should_stop_tracking_jsx_closer_run :
  forced jsx_tracker = false
  /\ spec_should_stop jsx_tracker 11 = true
  /\ should_stop_tracking jsx_tracker 11 = Raise IndexError.
Proof. repeat split; vm_compute; reflexivity. Qed.

(** C3: an [IndexError] that escapes from [on_modified]. In a JSX view
    with the text [<()], the caret between the parentheses and the previous
    caret one to the left, the handler starts a tracker over the whole text
    with offset 1; the grammar rejects the parsed text, which is shorter than
    the region, and the backward walk of [should_stop_tracking] reads past
    its end. The handler raises and leaves the tracker registered. *)
Theorem on_modified_jsx_index_error :
  on_modified (host := toy_host true true) (listener_at 1)
    (fresh_editor "<()" 2)
  = Crashed IndexError
      (marked_editor "<()" 2 (mkRegion 0 3) jsx_paren_tracker)
  /\ should_stop_tracking jsx_paren_tracker 2 = Raise IndexError.
Proof. split; vm_compute; reflexivity. Qed.

(** The marker and the letter [d] typed after [a ] in a JSX view. *)
Lemma start_abbreviation_tracking_jsx_witness :
  exists trk e',
    start_abbreviation_tracking (host := toy_host true true)
      (fresh_editor "a <d" 4) 4 = Done (Some trk) e'
    /\ begin (region trk) = 2 /\ offset trk = 1.
Proof.
  destruct (start_abbreviation_tracking_jsx (host := toy_host true true)
              (fresh_editor "a <d" 4) 4 eq_refl) as (Hiff & _ & Hfields).
  destruct (proj2 Hiff) as (trk & e' & Hrun).
  { exists (ord "<"), (ord "d"). repeat split; vm_compute; congruence. }
  exists trk, e'. split; [exact Hrun|].
  destruct (Hfields trk e' Hrun) as (Hb & Ho & _). split; [exact Hb|exact Ho].
Defined.

(** C5: the pattern outside JSX accepts a line feed after a start
    character. In a view with the text [d] and a line feed, caret after the
    line feed, the character before the caret is the line feed, which is no
    abbreviation-start character, and [start_abbreviation_tracking] still
    starts a tracker, over the line feed. *)
Theorem start_abbreviation_tracking_line_feed :
  ~ word_start_before (code_view d_newline 2) 2
  /\ start_abbreviation_tracking (host := toy_host false true)
       (fresh_editor d_newline 2) 2
     = Done
         (Some (mkTracker (mkRegion 1 2)
                  (Some (mkAbbreviation [LF] None)) false 0 false false))
         (marked_editor d_newline 2 (mkRegion 1 2)
            (mkTracker (mkRegion 1 2)
               (Some (mkAbbreviation [LF] None)) false 0 false false)).
Proof.
  split; [|vm_compute; reflexivity].
  intros (c & Hc & Hs & _). vm_compute in Hc. injection Hc as <-.
  vm_compute in Hs. discriminate.
Qed.

(** The letter [d] typed at the start of an empty text starts a tracker
    over it. *)
Example start_abbreviation_tracking_first_letter :
  start_abbreviation_tracking (host := toy_host false true)
    (fresh_editor "d" 1) 1
  = Done
      (Some (mkTracker (mkRegion 0 1)
               (Some (mkAbbreviation (py "d") None)) false 0 false false))
      (marked_editor "d" 1 (mkRegion 0 1)
         (mkTracker (mkRegion 0 1)
            (Some (mkAbbreviation (py "d") None)) false 0 false false)).
Proof. vm_compute. reflexivity. Qed.

(** An opening parenthesis typed after a space, with its closer inserted
    after the caret. *)
Lemma start_abbreviation_tracking_end_witness :
  start_abbreviation_tracking (host := toy_host false true)
    (fresh_editor " ()" 2) 2
  = Done (Some paren_tracker)
      (marked_editor " ()" 2 (mkRegion 1 3) paren_tracker)
  /\ end_ (region paren_tracker) = 3.
Proof.
  assert (start_abbreviation_tracking (host := toy_host false true)
            (fresh_editor " ()" 2) 2
          = Done (Some paren_tracker)
              (marked_editor " ()" 2 (mkRegion 1 3) paren_tracker)) as Hrun
    by (vm_compute; reflexivity).
  split; [exact Hrun|].
  exact (start_abbreviation_tracking_end _ _ _ _ Hrun).
Defined.

(** C7 as stated fails where tracking is not allowed: with [auto_mark] off,
    a tracker over [0, 1] that does not contain the position 5, and a letter
    before that position for the extraction to find, the call returns none
    and the tracker stays registered. *)
Lemma suggest_abbreviation_tracker_not_allowed :
  get_tracker (tracked_editor "a b c" 5 letter_tracker) = Some letter_tracker
  /\ contains (region letter_tracker) 5 = false
  /\ toy_extract (code_view "a b c" 5) 5 true = Some (mkExtracted 4 5 4)
  /\ suggest_abbreviation_tracker (host := toy_host false false)
       (tracked_editor "a b c" 5 letter_tracker) 5
     = (None, tracked_editor "a b c" 5 letter_tracker).
Proof. repeat split; vm_compute; reflexivity. Qed.

(** With [auto_mark] on, the same call stops the stale tracker and starts
    one over the letter before the position. *)
Lemma suggest_abbreviation_tracker_gated_witness :
  exists trk e2,
    suggest_abbreviation_tracker (host := toy_host false true)
      (tracked_editor "a b c" 5 letter_tracker) 5 = (Some trk, e2)
    /\ region trk = mkRegion 4 5 /\ offset trk = 0 /\ forced trk = false
    /\ get_tracker e2 = Some trk.
Proof.
  destruct (suggest_abbreviation_tracker_gated (host := toy_host false true)
              (tracked_editor "a b c" 5 letter_tracker) 5) as [_ Hyes].
  destruct (Hyes eq_refl) as [Hstale _].
  destruct (Hstale letter_tracker eq_refl eq_refl) as [_ Hfrom].
  exact Hfrom.
Defined.

(** Expanding the valid tracker over the first letter of [a b c]. *)
Lemma expand_abbreviation_stops_witness :
  exists e',
    EmmetExpandAbbreviation_run (host := toy_host false true)
      (tracked_editor "a b c" 1 letter_tracker) = Done tt e'
    /\ get_tracker e' = None
    /\ buffer (view e') = py "<a/> b c".
Proof.
  destruct (expand_abbreviation_stops (host := toy_host false true)
              (tracked_editor "a b c" 1 letter_tracker) letter_tracker
              eq_refl eq_refl) as (e' & Hrun & Hnone & Hrest).
  exists e'. split; [exact Hrun|]. split; [exact Hnone|].
  cbn in Hrest. destruct Hrest as (e1 & cfg & Hexp & -> & Hview & ->).
  injection Hexp as <-. reflexivity.
Defined.

(** A caret that jumped from 0 to 3: nothing is started. *)
Lemma on_modified_starts_after_insert_only_witness :
  final (on_modified (host := toy_host false true) (listener_at 0)
           (fresh_editor "a d" 3))
  = fresh_editor "a d" 3.
Proof.
  destruct (on_modified_starts_after_insert_only
              (host := toy_host false true) (listener_at 0)
              (fresh_editor "a d" 3)) as [H|[H|H]].
  - vm_compute. discriminate.
  - exact H.
  - exact H.
  - vm_compute in H. vm_compute. exact H.
Defined.

(** After a single character typed at the recorded caret the handler does
    start a tracker. *)
Example on_modified_starts_after_insert :
  on_modified (host := toy_host false true) (listener_at 2)
    (fresh_editor "a d" 3)
  = Done (listener_at 3)
      (marked_editor "a d" 3 (mkRegion 2 3)
         (mkTracker (mkRegion 2 3) (Some (mkAbbreviation (py "d") None))
            false 0 false false)).
Proof. vm_compute. reflexivity. Qed.

(** Entering forced mode on the selection [2, 5] of a view without
    tracker, and leaving it on a view with a forced tracker. *)
Lemma enter_abbreviation_toggles_witness :
  (exists trk e',
     EmmetEnterAbbreviation_run (host := toy_host false true)
       (mkEditor (mkView 1 (py "a b c") [mkRegion 2 5] false []) ∅)
     = Done tt e'
     /\ get_tracker e' = Some trk /\ forced trk = true
     /\ region trk = mkRegion 2 5 /\ preview_visible trk = true
     /\ sel (view e') = [mkRegion 5 5])
  /\ EmmetEnterAbbreviation_run (host := toy_host false true)
       (tracked_editor "d()" 3 forced_tracker)
     = Done tt (fresh_editor "d()" 3).
Proof.
  split.
  - destruct (enter_abbreviation_toggles (host := toy_host false true)
                (mkEditor (mkView 1 (py "a b c") [mkRegion 2 5] false []) ∅))
      as [_ Hnew].
    destruct (Hnew (mkRegion 2 5) [] ltac:(discriminate) eq_refl)
      as (trk & e' & Hrun & Hg & Hf & Hr & _ & _ & Hp & Hs).
    exists trk, e'. repeat split; assumption.
  - destruct (enter_abbreviation_toggles (host := toy_host false true)
                (tracked_editor "d()" 3 forced_tracker)) as [Htoggle _].
    destruct (Htoggle forced_tracker eq_refl eq_refl) as [Hrun _].
    exact Hrun.
Defined.

(** ** Further properties of [abbreviation.py] *)

Section HandlerProperties.

Context {Config : Type} {host : Host Config} {lhost : ListenerHost Config}.

(** X2: the decision on a rejected abbreviation that fills its region. For
    a tracker that is not forced, whose abbreviation text has no line break,
    was rejected by the grammar and is as long as the region,
    [should_stop_tracking] returns, and it returns [True] exactly at the end
    of the region and at the start of the run of closing brackets that ends
    the text. *)
Theorem should_stop_tracking_whole_text (trk : RegionTracker Config)
    (ab : Abbreviation) (pos : Z) :
  forced trk = false ->
  abbreviation trk = Some ab ->
  has_line_break (abbr ab) = false ->
  has_error ab = true ->
  Z.of_nat (length (abbr ab)) = end_ (region trk) - begin (region trk) ->
  should_stop_tracking trk pos
  = Ok ((pos =? end_ (region trk))
        || (pos =? end_ (region trk) - Z.of_nat (trailing_closers (abbr ab)))).
Proof.
  intros Hf Hab Hnl Herr Hlen.
  rewrite should_stop_tracking_agrees.
  - unfold spec_should_stop. now rewrite Hf, Hab, Hnl, Herr.
  - intros ab' Hab'. congruence.
Qed.

(** X4: [start_abbreviation_tracking] always returns. When it returns none
    the editor is as it was; when it returns a tracker, that tracker is
    registered for the view, is not forced, begins one or two characters
    before the caret and ends at the caret or one past it. *)
Theorem start_abbreviation_tracking_returns (e : Editor Config) (pos : Z) :
  exists r e',
    start_abbreviation_tracking e pos = Done r e'
    /\ match r with
       | None => e' = e
       | Some trk =>
           get_tracker e' = Some trk /\ forced trk = false
           /\ (a (region trk) = pos - 1 \/ a (region trk) = pos - 2)
           /\ (b (region trk) = pos \/ b (region trk) = pos + 1)
       end.
Proof.
  rewrite start_abbreviation_tracking_result.
  destruct (starts_tracking (view e) pos); [|now exists None, e].
  cbv zeta. eexists _, _. split; [reflexivity|].
  match goal with
  | |- context [start_tracking ?e0 ?s ?t ?f ?o ?c] =>
      destruct (start_tracking_fields e0 s t o f c) as (Hr & Hf & _ & Hg & _)
  end.
  rewrite Hr. cbn [a b]. repeat split; try done.
  - destruct (is_jsx_at (view e) pos); eauto.
  - destruct (closer_follows (view e) pos); eauto.
Qed.

(** The text of a one-character region before the caret. *)
Lemma substr_char_before (v : View) (pos : Z) (c : N) :
  char_before v pos = Some c -> substr v (mkRegion (pos - 1) pos) = [c].
Proof.
  intros [Hpos Hc]%char_before_Some.
  unfold substr, begin, end_. cbn [a b].
  rewrite Z.min_l, Z.max_r by lia.
  replace (Z.to_nat pos - Z.to_nat (pos - 1))%nat with 1%nat by lia.
  rewrite <- (Nat.add_0_r (Z.to_nat (pos - 1))) in Hc.
  rewrite <- lookup_drop in Hc.
  destruct (drop (Z.to_nat (pos - 1)) (buffer v)) as [|x r]; [done|].
  cbn in Hc. injection Hc as ->. cbn. now rewrite take_0.
Qed.

(** X5: a tracker started behind a line feed does not survive the edit. If
    [start_abbreviation_tracking] starts a tracker while the character
    before the caret is a line feed, [should_stop_tracking] returns [True]
    for that tracker at every position, so that [on_modified] stops it at
    once. *)
Theorem line_feed_tracker_stops (e e' : Editor Config) (pos : Z)
    (trk : RegionTracker Config) :
  start_abbreviation_tracking e pos = Done (Some trk) e' ->
  char_before (view e) pos = Some LF ->
  forall p, should_stop_tracking trk p = Ok true.
Proof.
  rewrite start_abbreviation_tracking_result. intros Hrun Hlf p.
  destruct (starts_tracking (view e) pos) eqn:Hs; [|discriminate].
  cbv zeta in Hrun. unfold starts_tracking in Hs.
  assert (closer_follows (view e) pos = false) as Hcf.
  { unfold closer_follows. rewrite Hlf.
    destruct (char_after (view e) pos); [|done].
    apply bool_decide_eq_false_2. vm_compute. discriminate. }
  rewrite Hcf in Hrun.
  destruct (is_jsx_at (view e) pos).
  - apply jsx_prefixed_marker in Hs as (m & c & _ & _ & Hc & _ & Hjs).
    rewrite Hlf in Hc. injection Hc as <-. vm_compute in Hjs. discriminate.
  - injection Hrun as <- _.
    unfold should_stop_tracking, start_tracking. cbn.
    unfold parse_abbreviation.
    rewrite (substr_char_before _ _ _ Hlf). reflexivity.
Qed.

(** The text of a region inside the buffer is as long as the region. *)
Lemma length_substr (v : View) (lo hi : Z) :
  0 <= lo <= hi -> hi <= size v ->
  Z.of_nat (length (substr v (mkRegion lo hi))) = hi - lo.
Proof.
  intros Hlo Hhi. unfold substr, begin, end_, size in *. cbn [a b].
  rewrite Z.min_l, Z.max_r by lia.
  rewrite length_take, length_drop. lia.
Qed.

(** X6: outside JSX the tracker that [start_abbreviation_tracking] starts
    at a caret inside the text is safe for [should_stop_tracking]: the call
    returns, at every position, and its answer is the decision the spec
    describes. *)
Theorem start_abbreviation_tracking_safe (e e' : Editor Config) (pos : Z)
    (trk : RegionTracker Config) :
  is_jsx_at (view e) pos = false ->
  pos <= size (view e) ->
  start_abbreviation_tracking e pos = Done (Some trk) e' ->
  forall p, should_stop_tracking trk p = Ok (spec_should_stop trk p).
Proof.
  intros Hjsx Hsize Hrun p.
  assert (1 <= pos) as Hpos.
  { rewrite start_abbreviation_tracking_result in Hrun.
    unfold starts_tracking in Hrun. rewrite Hjsx in Hrun.
    destruct (re_word_bound (prefix_at (view e) pos)) eqn:Hw; [|discriminate].
    apply (prefix_at_nonempty (view e)). intros Hnil. now rewrite Hnil in Hw. }
  assert (closer_follows (view e) pos = true -> pos + 1 <= size (view e))
    as Hnext.
  { unfold closer_follows, char_after.
    destruct (char_before (view e) pos); [|discriminate].
    assert ((0 <=? pos) = true) as -> by (apply Z.leb_le; lia).
    destruct (buffer (view e) !! Z.to_nat pos) eqn:Hb; [|discriminate].
    intros _. apply lookup_lt_Some in Hb. unfold size. lia. }
  rewrite start_abbreviation_tracking_result in Hrun.
  destruct (starts_tracking (view e) pos); [|discriminate].
  cbv zeta in Hrun. rewrite Hjsx in Hrun. injection Hrun as <- _.
  apply should_stop_tracking_agrees. intros ab.
  unfold start_tracking. cbn. unfold parse_abbreviation. cbn [drop Z.to_nat].
  destruct (substr _ _) eqn:Htext; [discriminate|]. intros [= <-]. cbn [abbr].
  rewrite <- Htext. unfold begin, end_. cbn [a b].
  destruct (closer_follows (view e) pos).
  - rewrite length_substr by (specialize (Hnext eq_refl); lia). lia.
  - rewrite length_substr by lia. lia.
Qed.

(** Without a recorded caret that allows a start, [on_modified] on a code
    view ends in the state [handle_change] left, or in that state with the
    tracker stopped. *)
Lemma on_modified_not_started (l : Listener) (e : Editor Config) :
  is_widget (view e) = false ->
  (forall last,
     last_pos_tracker l !! view_id (view e) = Some last ->
     (last =? get_caret (view e) - 1)
     && allow_tracking (view (handle_change e).2) last = false) ->
  final (on_modified l e) = (handle_change e).2
  \/ final (on_modified l e) = stop_tracking (handle_change e).2.
Proof.
  intros Hw Hno. unfold on_modified, main_view, on_modified_body.
  rewrite Hw. cbn [negb].
  destruct (handle_change e) as [trk e1]. cbn [snd] in *.
  assert (forall (started : option (RegionTracker Config)) (l' : Listener),
            let o : outcome Config Listener :=
              match started with
              | Some t =>
                  match should_stop_tracking t (get_caret (view e)) with
                  | Ok true => Done l' (stop_tracking e1)
                  | Ok false => Done l' e1
                  | Raise x => Crashed x e1
                  end
              | None => Done l' e1
              end in
            final o = e1 \/ final o = stop_tracking e1) as Hstop.
  { intros [t|] l'; cbn; [|now left].
    destruct (should_stop_tracking t _) as [[|]|x]; cbn; eauto. }
  destruct trk as [t|]; [exact (Hstop (Some t) _)|].
  destruct (last_pos_tracker l !! view_id (view e)) as [last|] eqn:Hl;
    [|exact (Hstop None _)].
  rewrite (Hno last eq_refl). exact (Hstop None _).
Qed.

(** X7: no suggestion while a tracker covers the position. When the view
    has a tracker whose region contains [pos],
    [suggest_abbreviation_tracker] returns none and changes nothing, even
    where tracking is allowed; so the extract command at that caret shows no
    preview and [on_query_completions] offers no completion. *)
Theorem suggest_abbreviation_tracker_covered (e : Editor Config) (pos : Z)
    (t : RegionTracker Config) :
  get_tracker e = Some t ->
  contains (region t) pos = true ->
  suggest_abbreviation_tracker e pos = (None, e)
  /\ (get_caret (view e) = pos -> EmmetExtractAbbreviation_run e = e)
  /\ (forall l rest, (on_query_completions l e (pos :: rest)).2 = Done None e).
Proof.
  intros Ht Hc.
  assert (suggest_abbreviation_tracker e pos = (None, e)) as Hs.
  { unfold suggest_abbreviation_tracker. rewrite Ht, Hc.
    now destruct (allow_tracking (view e) pos). }
  split; [exact Hs|]. split.
  - intros <-. unfold EmmetExtractAbbreviation_run. now rewrite Hs.
  - intros l rest. unfold on_query_completions.
    destruct (pending_completions_request l); [|done]. now rewrite Hs.
Qed.

(** X8: with [auto_mark] off nothing tracks on its own. [on_modified] on a
    code view starts no tracker (it ends in the state [handle_change] left,
    or that state with the tracker stopped); [on_selection_modified] and the
    extract command change nothing, an [auto_complete] command does not arm
    the completions, and [on_query_completions] offers none and leaves the
    editor alone. *)
Theorem auto_mark_off (l : Listener) (e : Editor Config) :
  auto_mark = false ->
  (is_widget (view e) = false ->
   final (on_modified l e) = (handle_change e).2
   \/ final (on_modified l e) = stop_tracking (handle_change e).2)
  /\ on_selection_modified l e = Done l e
  /\ EmmetExtractAbbreviation_run e = e
  /\ on_text_command l e "auto_complete" = (l, e)
  /\ (forall pos rest,
        (on_query_completions l e (pos :: rest)).2 = Done None e).
Proof.
  intros Hoff.
  assert (forall v pos, allow_tracking v pos = false) as Hallow.
  { intros v pos. unfold allow_tracking, is_enabled. now rewrite Hoff. }
  assert (forall pos, suggest_abbreviation_tracker e pos = (None, e)) as Hs.
  { intros pos. unfold suggest_abbreviation_tracker. now rewrite Hallow. }
  repeat split.
  - intros Hw. apply on_modified_not_started; [done|].
    intros last _. rewrite Hallow. apply andb_false_r.
  - unfold on_selection_modified, main_view, is_enabled. rewrite Hoff.
    now destruct (is_widget (view e)).
  - unfold EmmetExtractAbbreviation_run. now rewrite Hs.
  - unfold on_text_command, is_enabled. now rewrite Hoff.
  - intros pos rest. unfold on_query_completions.
    destruct (pending_completions_request l); [|done]. now rewrite Hs.
Qed.

(** X9: completions are answered once per request. A call of
    [on_query_completions] with a location leaves the request flag off,
    whether it returns or raises; and with the flag off a call offers
    nothing and changes neither the listener nor the editor. Hence a second
    query after one [auto_complete] command is never answered. *)
Theorem on_query_completions_once (l : Listener) (e : Editor Config)
    (pos : Z) (rest : list Z) :
  pending_completions_request (on_query_completions l e (pos :: rest)).1
  = false
  /\ (pending_completions_request l = false ->
      on_query_completions l e (pos :: rest) = (l, Done None e))
  /\ (forall pos' rest',
        on_query_completions (on_query_completions l e (pos :: rest)).1
          (final (on_query_completions l e (pos :: rest)).2) (pos' :: rest')
        = ((on_query_completions l e (pos :: rest)).1,
           Done None (final (on_query_completions l e (pos :: rest)).2))).
Proof.
  assert (pending_completions_request
            (on_query_completions l e (pos :: rest)).1 = false) as Hoff.
  { unfold on_query_completions.
    destruct (pending_completions_request l) eqn:Hp; [|done].
    destruct (suggest_abbreviation_tracker e pos) as [[t|] e1]; [|done].
    now destruct (expand_abbreviation e1 t). }
  split; [exact Hoff|]. split.
  - intros Hp. unfold on_query_completions. now rewrite Hp.
  - intros pos' rest'.
    destruct (on_query_completions l e (pos :: rest)) as [l1 o1].
    cbn [fst snd] in *. unfold on_query_completions. now rewrite Hoff.
Qed.

(** What [suggest_abbreviation_tracker] returns is what [start_tracking]
    registered. *)
Lemma suggest_abbreviation_tracker_some (e e1 : Editor Config) (pos : Z)
    (t : RegionTracker Config) :
  suggest_abbreviation_tracker e pos = (Some t, e1) ->
  get_tracker e1 = Some t /\ forced t = false.
Proof.
  unfold suggest_abbreviation_tracker.
  destruct (allow_tracking (view e) pos); cbn [negb]; [|discriminate].
  set (st := match get_tracker e with
             | Some t0 =>
                 if negb (contains (region t0) pos)
                 then (None, stop_tracking e) else (Some t0, e)
             | None => (None, e)
             end).
  destruct st as [[t0|] e0]; [discriminate|].
  destruct (extract_abbreviation _ _ _) as [ab|]; [|discriminate].
  intros Heq.
  match type of Heq with
  | context [start_tracking ?e' ?s ?u ?f ?o ?c] =>
      pose proof (start_tracking_fields e' s u o f c) as HF; cbv zeta in HF;
      remember (start_tracking e' s u f o c) as st' eqn:Hst; clear Hst
  end.
  destruct st' as [t' e']. injection Heq as <- <-. cbn [fst snd] in HF.
  now destruct HF as (_ & Hf & _ & Hg & _).
Qed.

(** X10: what a completion stands for. When [on_query_completions] returns
    completions, there is exactly one; a tracker with an abbreviation is then
    registered for the view and is not forced, the trigger of the completion
    is the text of its region followed by a tab and [Emmet], and its content
    is the expansion of the abbreviation text under the tracker's config. *)
Theorem on_query_completions_item (l l' : Listener) (e e' : Editor Config)
    (locations : list Z) (items : list (pystr * pystr)) :
  on_query_completions l e locations = (l', Done (Some items) e') ->
  exists trk ab,
    get_tracker e' = Some trk
    /\ forced trk = false
    /\ abbreviation trk = Some ab
    /\ items = [(substr (view e') (region trk) ++ TAB :: py "Emmet",
                 expand (abbr ab) (config trk))].
Proof.
  unfold on_query_completions.
  destruct locations as [|pos rest]; [discriminate|].
  destruct (pending_completions_request l); [|discriminate].
  destruct (suggest_abbreviation_tracker e pos) as [[t|] e1] eqn:Hs;
    [|discriminate].
  apply suggest_abbreviation_tracker_some in Hs as [Hg Hf].
  unfold expand_abbreviation.
  destruct (abbreviation t) as [ab|] eqn:Hab.
  - destruct (has_context (config t)) eqn:Hctx; cbn [negb].
    + intros [= <- <- <-]. exists t, ab. done.
    + intros [= <- <- <-].
      eexists _, ab. unfold get_tracker in *. cbn.
      rewrite lookup_alter_eq, Hg. cbn.
      split; [reflexivity|]. cbn. now rewrite Hab.
  - now destruct (negb (has_context (config t))).
Qed.

(** X11: restoring is idempotent. A tracker that [restore_tracker] returns
    is registered, is not forced, spans the first marked region from its
    beginning to its end and has the length of the config's prefix as
    offset, and the view had no tracker before; a second call right after any
    call returns none and changes nothing. *)
Theorem restore_tracker_idempotent (e : Editor Config) :
  (forall trk e',
     restore_tracker e = (Some trk, e') ->
     get_tracker e = None
     /\ get_tracker e' = Some trk /\ forced trk = false
     /\ exists r rest,
          marked (view e) = r :: rest
          /\ region trk = mkRegion (begin r) (end_ r)
          /\ offset trk
             = Z.of_nat (length (config_prefix
                                   (get_options (view e) (begin r) true))))
  /\ restore_tracker (restore_tracker e).2 = (None, (restore_tracker e).2).
Proof.
  unfold restore_tracker.
  destruct (marked (view e)) as [|r rest] eqn:Hm.
  - split; [discriminate|]. cbn [snd]. now rewrite Hm.
  - destruct (get_tracker e) as [t|] eqn:Ht.
    + split; [discriminate|]. cbn [snd]. now rewrite Hm, Ht.
    + split.
      * intros trk e' [= <- <-]. unfold get_tracker. cbn.
        rewrite lookup_insert_eq. eauto 10.
      * cbn. unfold get_tracker. cbn. now rewrite lookup_insert_eq.
Qed.

(** X12: what [undo] restores. After the [undo] command, on a view with a
    marked region and no tracker, a tracker over that region is registered
    with its preview shown; on a view that has a tracker, or no marked
    region, the handler changes nothing. The listener is untouched. *)
Theorem on_post_text_command_undo (l : Listener) (e : Editor Config) :
  (on_post_text_command l e "undo").1 = l
  /\ (forall r rest,
        marked (view e) = r :: rest -> get_tracker e = None ->
        exists trk,
          get_tracker (on_post_text_command l e "undo").2 = Some trk
          /\ region trk = mkRegion (begin r) (end_ r)
          /\ preview_visible trk = true
          /\ forced trk = false)
  /\ (marked (view e) = [] \/ is_Some (get_tracker e) ->
      (on_post_text_command l e "undo").2 = e).
Proof.
  unfold on_post_text_command, restore_tracker. cbn [String.eqb Ascii.eqb].
  cbn. repeat split.
  - destruct (marked (view e)); [done|]. now destruct (get_tracker e).
  - intros r rest -> ->. cbn. unfold get_tracker. cbn.
    rewrite lookup_alter_eq, lookup_insert_eq. cbn. eauto.
  - intros [->|[t ->]]; [done|]. now destruct (marked (view e)).
Qed.

(** The loop over the selections: its three answers. *)
Lemma query_selections_cases (trk : RegionTracker Config)
    (sels : list Region) :
  let inside := exists s, s ∈ sels /\ contains_region (region trk) s = true in
  (query_selections trk sels = Some true
   <-> inside
       /\ (forced trk = true
           \/ exists ab, abbreviation trk = Some ab /\ has_error ab = false))
  /\ (query_selections trk sels = None
      <-> inside /\ forced trk = false /\ abbreviation trk = None).
Proof.
  cbv zeta. induction sels as [|s rest [IHt IHn]]; cbn [query_selections].
  - split; split; try discriminate;
      intros [(s & Hs & _) _]; now apply elem_of_nil in Hs.
  - destruct (contains_region (region trk) s) eqn:Hc.
    + assert (exists s0, s0 ∈ s :: rest
                         /\ contains_region (region trk) s0 = true) as Hin
        by (exists s; split; [apply elem_of_cons; now left|done]).
      destruct (forced trk).
      * split; split.
        -- intros _. split; [done|now left].
        -- done.
        -- discriminate.
        -- intros (_ & Hf & _). discriminate.
      * destruct (abbreviation trk) as [ab|].
        -- split; split.
           ++ intros [= Hv]. split; [done|]. right. exists ab.
              now destruct (has_error ab).
           ++ intros (_ & [Hf|(ab' & Hab & Herr)]); [discriminate|].
              injection Hab as <-. now rewrite Herr.
           ++ discriminate.
           ++ intros (_ & _ & Hab). discriminate.
        -- split; split.
           ++ discriminate.
           ++ intros (_ & [Hf|(ab' & Hab & _)]); discriminate.
           ++ done.
           ++ done.
    + assert ((exists s0, s0 ∈ s :: rest
                          /\ contains_region (region trk) s0 = true)
              <-> exists s0, s0 ∈ rest
                             /\ contains_region (region trk) s0 = true) as Hin.
      { split.
        - intros (s0 & [->|Hs]%elem_of_cons & Hs0); [congruence|eauto].
        - intros (s0 & Hs & Hs0). exists s0.
          split; [apply elem_of_cons; now right|done]. }
      rewrite IHt, IHn, Hin. done.
Qed.

(** X13: the answer to the [emmet_abbreviation] context. It is [True]
    exactly when the view has a tracker, one of the selections lies inside
    its region, and the tracker is forced or holds an abbreviation without
    error; it is [None], and not [False], exactly when a selection lies
    inside the region of a tracker that is not forced and has no
    abbreviation. *)
Theorem on_query_context_abbreviation (e : Editor Config) :
  (on_query_context e "emmet_abbreviation" = Some true
   <-> exists trk,
         get_tracker e = Some trk
         /\ (exists s, s ∈ sel (view e)
                       /\ contains_region (region trk) s = true)
         /\ (forced trk = true
             \/ exists ab, abbreviation trk = Some ab
                           /\ has_error ab = false))
  /\ (on_query_context e "emmet_abbreviation" = None
      <-> exists trk,
            get_tracker e = Some trk
            /\ (exists s, s ∈ sel (view e)
                          /\ contains_region (region trk) s = true)
            /\ forced trk = false /\ abbreviation trk = None).
Proof.
  unfold on_query_context. cbn [String.eqb Ascii.eqb Bool.eqb].
  destruct (get_tracker e) as [trk|].
  - destruct (query_selections_cases trk (sel (view e))) as [Ht Hn].
    rewrite Ht, Hn. split; split.
    + intros [Hin Hok]. eauto.
    + now intros (trk' & [= <-] & Hin & Hok).
    + intros [Hin Hok]. eauto.
    + now intros (trk' & [= <-] & Hin & Hok).
  - split; split; try discriminate; now intros (trk & [=] & _).
Qed.

(** X14: the contexts agree with each other. Where the forced-mark context
    or the [emmet_abbreviation] context answers [True], the mark context
    answers [True] too; once the tracker is stopped all three answer
    [False]; and a key that is not one of the four gets [None]. *)
Theorem on_query_context_coherent (e : Editor Config) :
  (on_query_context e "has_emmet_forced_abbreviation_mark" = Some true ->
   on_query_context e "has_emmet_abbreviation_mark" = Some true)
  /\ (on_query_context e "emmet_abbreviation" = Some true ->
      on_query_context e "has_emmet_abbreviation_mark" = Some true)
  /\ (on_query_context (stop_tracking e) "emmet_abbreviation" = Some false
      /\ on_query_context (stop_tracking e) "has_emmet_abbreviation_mark"
         = Some false
      /\ on_query_context (stop_tracking e)
           "has_emmet_forced_abbreviation_mark" = Some false)
  /\ (forall key,
        key <> "emmet_abbreviation"%string ->
        key <> "emmet_tab_expand"%string ->
        key <> "has_emmet_abbreviation_mark"%string ->
        key <> "has_emmet_forced_abbreviation_mark"%string ->
        on_query_context e key = None).
Proof.
  split; [|split; [|split]].
  - unfold on_query_context. cbn [String.eqb Ascii.eqb Bool.eqb].
    cbn. now destruct (get_tracker e).
  - unfold on_query_context. cbn [String.eqb Ascii.eqb Bool.eqb].
    cbn. now destruct (get_tracker e).
  - unfold on_query_context. rewrite get_tracker_stop_tracking. done.
  - intros key H1 H2 H3 H4. unfold on_query_context.
    rewrite (proj2 (String.eqb_neq _ _) H1), (proj2 (String.eqb_neq _ _) H2),
      (proj2 (String.eqb_neq _ _) H3), (proj2 (String.eqb_neq _ _) H4).
    done.
Qed.

Lemma contains_region_normalized (r : Region) :
  contains_region (mkRegion (begin r) (end_ r)) r = true
  /\ contains_region (mkRegion (begin r) (end_ r))
       (mkRegion (end_ r) (end_ r)) = true.
Proof.
  unfold contains_region, begin, end_. cbn [a b].
  split; apply andb_true_intro; split; apply Z.leb_le; lia.
Qed.

(** X16: forced mode switches the contexts on and off. On a view with a
    primary selection and no forced tracker, after the enter-forced-mode
    command the [emmet_abbreviation] context and the forced-mark context both
    answer [True], whatever the selection holds; on a view with a forced
    tracker, after the command both answer [False]. *)
Theorem enter_abbreviation_context (e : Editor Config) :
  (forall primary rest,
     (forall t, get_tracker e = Some t -> forced t = false) ->
     sel (view e) = primary :: rest ->
     exists e',
       EmmetEnterAbbreviation_run e = Done tt e'
       /\ on_query_context e' "emmet_abbreviation" = Some true
       /\ on_query_context e' "has_emmet_forced_abbreviation_mark"
          = Some true)
  /\ (forall t, get_tracker e = Some t -> forced t = true ->
      exists e',
        EmmetEnterAbbreviation_run e = Done tt e'
        /\ on_query_context e' "emmet_abbreviation" = Some false
        /\ on_query_context e' "has_emmet_forced_abbreviation_mark"
           = Some false).
Proof.
  split.
  - intros primary rest Hnf Hsel. unfold EmmetEnterAbbreviation_run.
    assert (match get_tracker e with
            | Some t => forced t
            | None => false
            end = false) as ->.
    { destruct (get_tracker e) as [t|] eqn:Ht; [now apply Hnf|done]. }
    cbn [stop_tracking view set_marked sel]. rewrite Hsel. cbn [lookup].
    destruct (contains_region_normalized primary) as [Hsame Hcaret].
    cbn. unfold on_query_context, get_tracker.
    cbn [String.eqb Ascii.eqb Bool.eqb].
    destruct (empty primary); cbn [negb].
    + eexists. split; [reflexivity|]. cbn.
      rewrite lookup_insert_eq. cbn. rewrite Hsel. cbn.
      now rewrite Hsame.
    + eexists. split; [reflexivity|]. cbn.
      rewrite lookup_alter_eq, lookup_insert_eq. cbn.
      now rewrite Hcaret.
  - intros t Ht Hf. unfold EmmetEnterAbbreviation_run. rewrite Ht, Hf.
    eexists. split; [reflexivity|].
    unfold on_query_context. now rewrite get_tracker_stop_tracking.
Qed.





End HandlerProperties.

(** ** Properties of [go_to_tag_pair.py] *)

Module GoToTagPairProperties.

Import GoToTagPair.

Lemma occurrences_app (c : N) (s t : pystr) :
  occurrences c (s ++ t) = (occurrences c s + occurrences c t)%nat.
Proof. induction s as [|x s IH]; cbn; [done|]. rewrite IH. lia. Qed.

(** Replacing a character by a text without it removes it. *)
Lemma occurrences_replaced (c : N) (rep s : pystr) :
  occurrences c rep = 0%nat -> occurrences c (replace_char c rep s) = 0%nat.
Proof.
  intros Hrep. induction s as [|x s IH]; [done|].
  unfold replace_char in *. cbn [flat_map]. rewrite occurrences_app, IH.
  destruct (N.eqb_spec x c) as [->|Hne]; [lia|].
  cbn. now rewrite (proj2 (N.eqb_neq x c) Hne).
Qed.

(** Replacing another character by a text without [c] keeps the count of
    [c]. *)
Lemma occurrences_replace_other (c d : N) (rep s : pystr) :
  c <> d -> occurrences c rep = 0%nat ->
  occurrences c (replace_char d rep s) = occurrences c s.
Proof.
  intros Hcd Hrep. induction s as [|x s IH]; [done|].
  unfold replace_char in *. cbn [flat_map occurrences].
  rewrite occurrences_app, IH.
  destruct (N.eqb_spec x d) as [->|Hne].
  - rewrite Hrep. now rewrite (proj2 (N.eqb_neq d c)) by done.
  - cbn. lia.
Qed.

Lemma html_escape_no_angle (s : pystr) :
  occurrences (ord "<") (html_escape s) = 0%nat
  /\ occurrences (ord ">") (html_escape s) = 0%nat.
Proof.
  unfold html_escape. split.
  - rewrite occurrences_replace_other by (vm_compute; done).
    now apply occurrences_replaced.
  - now apply occurrences_replaced.
Qed.

(** A decimal numeral has digits only. *)
Lemma string_of_uint_no_angle (c : N) (d : Decimal.uint) :
  c = ord "<" \/ c = ord ">" ->
  occurrences c (py (DecimalString.NilEmpty.string_of_uint d)) = 0%nat.
Proof.
  intros Hc. induction d; cbn; [done|..];
    unfold py in IHd; rewrite IHd; destruct Hc as [->| ->]; reflexivity.
Qed.

Lemma format_d_no_angle (c : N) (n : Z) :
  c = ord "<" \/ c = ord ">" -> occurrences c (format_d n) = 0%nat.
Proof.
  intros Hc. unfold format_d.
  destruct (Z.to_int n) as [d|d]; cbn [DecimalString.NilZero.string_of_int].
  - unfold DecimalString.NilZero.string_of_uint.
    destruct d; try apply (string_of_uint_no_angle c _ Hc).
    destruct Hc as [->| ->]; reflexivity.
  - unfold DecimalString.NilZero.string_of_uint.
    assert (occurrences c (py "-") = 0%nat) as Hminus
      by (destruct Hc as [->| ->]; reflexivity).
    destruct d;
      try (change (py (String "-" ?s)) with (py "-" ++ py s);
           rewrite occurrences_app, Hminus;
           apply (string_of_uint_no_angle c _ Hc)).
    destruct Hc as [->| ->]; reflexivity.
Qed.

(** X17: the phantom's markup does not depend on what it shows. Whatever
    the tag text and the target are, the HTML of [phantom_content] has
    exactly the eight opening and eight closing angle brackets of the
    template: the brackets of the tag text only occur escaped. *)
Theorem phantom_content_escapes (content : pystr) (dest : Z) :
  occurrences (ord "<") (phantom_content content dest) = 8%nat
  /\ occurrences (ord ">") (phantom_content content dest) = 8%nat.
Proof.
  destruct (html_escape_no_angle content) as [Hlt Hgt].
  unfold phantom_content. rewrite !occurrences_app, Hlt, Hgt.
  rewrite !format_d_no_angle by eauto. split; reflexivity.
Qed.

Section Handlers.

Context {host : Host}.

Lemma hide_tag_preview_spec (s : State) :
  view (hide_tag_preview s) = view s
  /\ previews_by_buffer (hide_tag_preview s) = previews_by_buffer s
  /\ phantoms_by_buffer (hide_tag_preview s) !! buffer_id (view s) = None
  /\ (forall k, k <> buffer_id (view s) ->
        phantoms_by_buffer (hide_tag_preview s) !! k
        = phantoms_by_buffer s !! k).
Proof.
  unfold hide_tag_preview.
  destruct (phantoms_by_buffer s !! buffer_id (view s)) eqn:Hp; cbn.
  - repeat split. { apply lookup_delete_eq. }
    intros k Hk. now rewrite lookup_delete_ne.
  - done.
Qed.

Lemma hide_tag_preview_consistent (s : State) :
  consistent s -> consistent (hide_tag_preview s).
Proof.
  intros Hs. unfold hide_tag_preview.
  destruct (phantoms_by_buffer s !! buffer_id (view s)) eqn:Hp;
    [|exact Hs].
  destruct Hs as [Hreg Hdrawn]. split; cbn.
  - intros k. destruct (decide (k = buffer_id (view s))) as [->|Hk].
    + rewrite lookup_delete_eq. now intros [? [=]].
    + rewrite lookup_delete_ne by done. apply Hreg.
  - done.
Qed.

Lemma hide_and_forget_consistent (s : State) :
  consistent s -> consistent (hide_and_forget s).
Proof.
  intros Hs. apply hide_tag_preview_consistent in Hs as [Hreg Hdrawn].
  destruct (hide_tag_preview_spec s) as (Hv & _ & Hnone & _).
  unfold hide_and_forget. split; cbn.
  - intros k Hk. destruct (decide (k = buffer_id (view s))) as [->|Hne].
    + rewrite Hnone in Hk. now destruct Hk.
    + rewrite Hv, lookup_delete_ne by done. now apply Hreg.
  - exact Hdrawn.
Qed.

(** The branch [on_selection_modified_async] takes depends on the view
    only: it returns at once, raises, hides, or shows at a position unless
    that position is the recorded one. *)
Lemma on_selection_modified_async_branch (s : State) :
  (forall s', view s' = view s -> on_selection_modified_async s' = Done s')
  \/ (forall s', view s' = view s ->
        on_selection_modified_async s' = Raised KeyError s')
  \/ (forall s', view s' = view s ->
        on_selection_modified_async s' = Done (hide_and_forget s'))
  \/ (exists pos text dest,
        forall s', view s' = view s ->
          on_selection_modified_async s'
          = if match previews_by_buffer s' !! buffer_id (view s') with
               | Some (pt, _) => pt =? pos
               | None => false
               end
            then Done s'
            else
              let s1 := show_tag_preview s' pos text dest in
              Done (mkState (view s1) (phantoms s1)
                      (<[buffer_id (view s') := (pos, true)]>
                         (previews_by_buffer s1))
                      (phantoms_by_buffer s1))).
Proof.
  destruct (emmet_tag_preview (view s)) eqn:Hset.
  2: { left. intros s' Hv. unfold on_selection_modified_async.
       now rewrite Hv, Hset. }
  right.
  destruct (is_html (from_pos (view s) (get_caret (view s)))) eqn:Hhtml.
  2: { right. left. intros s' Hv. unfold on_selection_modified_async.
       now rewrite Hv, Hset, Hhtml. }
  destruct (get_tag_context (view s) (get_caret (view s))
              (is_xml (from_pos (view s) (get_caret (view s)))))
    as [ctx|] eqn:Hctx.
  2: { right. left. intros s' Hv. unfold on_selection_modified_async.
       now rewrite Hv, Hset, Hhtml, Hctx. }
  destruct (ctx_close ctx) as [close_tag|] eqn:Hclose.
  2: { right. left. intros s' Hv. unfold on_selection_modified_async.
       now rewrite Hv, Hset, Hhtml, Hctx, Hclose. }
  destruct (contains close_tag (get_caret (view s))) eqn:Hin.
  2: { right. left. intros s' Hv. unfold on_selection_modified_async.
       now rewrite Hv, Hset, Hhtml, Hctx, Hclose, Hin. }
  destruct (ctx_open ctx) as [open_tag|] eqn:Hopen.
  2: { left. intros s' Hv. unfold on_selection_modified_async.
       now rewrite Hv, Hset, Hhtml, Hctx, Hclose, Hin, Hopen. }
  destruct (contains_region (visible_region (view s)) open_tag) eqn:Hvis.
  { right. left. intros s' Hv. unfold on_selection_modified_async.
    now rewrite Hv, Hset, Hhtml, Hctx, Hclose, Hin, Hopen, Hvis. }
  right. right. eexists _, _, _. intros s' Hv.
  unfold on_selection_modified_async.
  rewrite Hv, Hset, Hhtml, Hctx, Hclose, Hin, Hopen, Hvis. cbn [negb].
  reflexivity.
Qed.

Lemma shown_consistent (s : State) (pos : Z) (text : pystr) (dest : Z) :
  consistent s ->
  let s1 := show_tag_preview s pos text dest in
  consistent (mkState (view s1) (phantoms s1)
                (<[buffer_id (view s) := (pos, true)]>
                   (previews_by_buffer s1))
                (phantoms_by_buffer s1)).
Proof.
  intros [Hreg Hdrawn]. cbv zeta. unfold show_tag_preview. split; cbn.
  - intros k. destruct (decide (k = buffer_id (view s))) as [->|Hk].
    + intros _. rewrite lookup_insert_eq. by eexists.
    + rewrite !lookup_insert_ne by done. intros Hsome. apply Hreg.
      destruct (phantoms_by_buffer s !! buffer_id (view s)); [done|].
      now rewrite lookup_insert_ne in Hsome.
  - intros _. rewrite lookup_insert_eq. by eexists.
Qed.

(** X18: the two dicts stay in step. If every registered phantom set
    belongs to a buffer with a recorded preview, and phantoms are drawn only
    while the buffer of the view has a phantom set, then the same holds
    after [on_selection_modified_async] (returning or raising), after the
    hide command, after [go_to_pos] and after the go-to-pair command. *)
Theorem handlers_keep_consistent (s : State) :
  consistent s ->
  consistent (final (on_selection_modified_async s))
  /\ consistent (HideTagPreview_run s)
  /\ (forall pos, consistent (go_to_pos s pos))
  /\ consistent (GoToTagPair_run s).
Proof.
  intros Hs.
  assert (forall pos, consistent (go_to_pos s pos)) as Hgo.
  { intros pos. unfold go_to_pos. apply hide_tag_preview_consistent.
    destruct Hs as [Hreg Hdrawn]. now split. }
  split; [|split; [|split]].
  - destruct (on_selection_modified_async_branch s)
      as [H|[H|[H|(pos & text & dest & H)]]]; rewrite (H s eq_refl); cbn.
    + done.
    + done.
    + now apply hide_and_forget_consistent.
    + destruct (match previews_by_buffer s !! buffer_id (view s) with
                | Some (pt, _) => pt =? pos
                | None => false
                end); cbn; [done|].
      now apply shown_consistent.
  - unfold HideTagPreview_run.
    destruct (previews_by_buffer s !! buffer_id (view s))
      as [[pt [|]]|] eqn:Hp; try done.
    destruct Hs as [Hreg Hdrawn]. split; cbn; [|done].
    intros k Hk. apply lookup_insert_is_Some'. right. now apply Hreg.
  - exact Hgo.
  - unfold GoToTagPair_run. cbv zeta.
    destruct (is_html _); [|done].
    destruct (get_tag_context _ _ _) as [ctx|]; [|done].
    destruct (ctx_open ctx), (ctx_close ctx); first [done|apply Hgo].
Qed.

Lemma hide_and_forget_idempotent (s : State) :
  hide_and_forget (hide_and_forget s) = hide_and_forget s.
Proof.
  assert (forall t, phantoms_by_buffer t !! buffer_id (view t) = None ->
                    hide_tag_preview t = t) as Hid.
  { intros t Ht. unfold hide_tag_preview. now rewrite Ht. }
  destruct (hide_tag_preview_spec s) as (Hv & Hprev & Hnone & _).
  assert (phantoms_by_buffer (hide_and_forget s)
          !! buffer_id (view (hide_and_forget s)) = None) as Ht.
  { unfold hide_and_forget. cbn. now rewrite Hv. }
  unfold hide_and_forget at 1. rewrite (Hid _ Ht).
  unfold hide_and_forget. cbn. now rewrite delete_delete_eq.
Qed.

(** Running the handler on its own result changes nothing. *)
Lemma on_selection_modified_async_fixed (s s1 : State) :
  on_selection_modified_async s = Done s1 ->
  view s1 = view s /\ on_selection_modified_async s1 = Done s1.
Proof.
  destruct (on_selection_modified_async_branch s)
    as [H|[H|[H|(pos & text & dest & H)]]]; rewrite (H s eq_refl).
  - intros [= <-]. split; [done|]. now apply H.
  - discriminate.
  - intros [= <-].
    assert (view (hide_and_forget s) = view s) as Hv.
    { unfold hide_and_forget. cbn. apply hide_tag_preview_spec. }
    split; [done|]. rewrite (H _ Hv). now rewrite hide_and_forget_idempotent.
  - destruct (match previews_by_buffer s !! buffer_id (view s) with
              | Some (pt, _) => pt =? pos
              | None => false
              end) eqn:Hrec.
    + intros [= <-]. split; [done|]. rewrite (H s eq_refl). now rewrite Hrec.
    + cbv zeta. intros [= <-]. cbn. split; [done|].
      rewrite H by done. cbn. rewrite lookup_insert_eq, Z.eqb_refl. done.
Qed.

(** X19: the preview handler is idempotent. When
    [on_selection_modified_async] returns, running it again on the state it
    left returns that same state: a caret that stays where it is never
    redraws the phantom. When it raises, the state is as it was. *)
Theorem on_selection_modified_async_idempotent (s : State) :
  on_selection_modified_async (final (on_selection_modified_async s))
  = on_selection_modified_async s
  /\ (forall x s1, on_selection_modified_async s = Raised x s1 -> s1 = s)
  /\ (forall s1, on_selection_modified_async s = Done s1 ->
        on_selection_modified_async s1 = Done s1).
Proof.
  split; [|split].
  - destruct (on_selection_modified_async s) as [s1|x s1] eqn:Hrun; cbn.
    + now apply on_selection_modified_async_fixed in Hrun as [_ ->].
    + destruct (on_selection_modified_async_branch s)
        as [H|[H|[H|(pos & text & dest & H)]]];
        rewrite (H s eq_refl) in Hrun; try discriminate.
      * injection Hrun as <- <-. now apply H.
      * now destruct (match previews_by_buffer s !! _ with
                      | Some (pt, _) => pt =? pos
                      | None => false
                      end).
  - intros x s1.
    destruct (on_selection_modified_async_branch s)
      as [H|[H|[H|(pos & text & dest & H)]]];
      rewrite (H s eq_refl); try discriminate.
    + now intros [= _ <-].
    + now destruct (match previews_by_buffer s !! _ with
                    | Some (pt, _) => pt =? pos
                    | None => false
                    end).
  - intros s1 Hrun. now apply on_selection_modified_async_fixed in Hrun.
Qed.

(** X20: a preview hidden by the user stays hidden. When the handler has
    returned with a visible preview recorded for the buffer, the hide
    command turns the [emmet_tag_preview] context to [False] and leaves the
    phantoms drawn, and the handler, run again for the same caret, changes
    nothing: the preview is not shown again at that place. *)
Theorem hidden_preview_stays_hidden (s s1 : State) (pt : Z) :
  on_selection_modified_async s = Done s1 ->
  previews_by_buffer s1 !! buffer_id (view s1) = Some (pt, true) ->
  on_query_context s1 "emmet_tag_preview" = Some true
  /\ on_query_context (HideTagPreview_run s1) "emmet_tag_preview"
     = Some false
  /\ phantoms (HideTagPreview_run s1) = phantoms s1
  /\ on_selection_modified_async (HideTagPreview_run s1)
     = Done (HideTagPreview_run s1).
Proof.
  intros Hrun Hrec.
  apply on_selection_modified_async_fixed in Hrun as [_ Hfix].
  assert (HideTagPreview_run s1
          = mkState (view s1) (phantoms s1)
              (<[buffer_id (view s1) := (pt, false)]> (previews_by_buffer s1))
              (phantoms_by_buffer s1)) as Hhide.
  { unfold HideTagPreview_run. now rewrite Hrec. }
  split; [|split; [|split]].
  - unfold on_query_context. cbn [String.eqb Ascii.eqb Bool.eqb].
    cbn. now rewrite Hrec.
  - rewrite Hhide. unfold on_query_context.
    cbn [String.eqb Ascii.eqb Bool.eqb]. cbn. now rewrite lookup_insert_eq.
  - now rewrite Hhide.
  - rewrite Hhide.
    destruct (on_selection_modified_async_branch s1)
      as [H|[H|[H|(pos & text & dest & H)]]].
    + now apply H.
    + rewrite (H s1 eq_refl) in Hfix. discriminate.
    + rewrite (H s1 eq_refl) in Hfix. injection Hfix as Hfix.
      apply (f_equal (fun st => previews_by_buffer st
                                !! buffer_id (view s1))) in Hfix.
      unfold hide_and_forget in Hfix. cbn in Hfix.
      destruct (hide_tag_preview_spec s1) as (Hv & Hp & _).
      rewrite Hv, lookup_delete_eq, Hrec in Hfix. discriminate.
    + rewrite (H s1 eq_refl), Hrec in Hfix. rewrite H by done. cbn.
      rewrite lookup_insert_eq.
      destruct (pt =? pos) eqn:Hpt; [done|].
      cbv zeta in Hfix. injection Hfix as Hfix.
      apply (f_equal (fun st => previews_by_buffer st
                                !! buffer_id (view s1))) in Hfix.
      cbn in Hfix. rewrite lookup_insert_eq, Hrec in Hfix.
      injection Hfix as ->. now rewrite Z.eqb_refl in Hpt.
Qed.

(** One jump from the start of a tag. *)
Lemma go_to_tag_pair_step (s : State) (open_tag close_tag : Region) (p : Z) :
  (forall v q, sel v = [mkRegion q q] -> get_caret v = q) ->
  (forall v q, buffer v = buffer (view s) -> is_html (from_pos v q) = true) ->
  (forall v q xml,
     buffer v = buffer (view s) ->
     get_tag_context v q xml
     = Some (mkTagContext (Some open_tag) (Some close_tag))) ->
  char_at (view s) p = Some (ord "<") ->
  sel (view s) = [mkRegion p p] ->
  let target :=
    if contains open_tag (p + 1) then a close_tag else a open_tag in
  sel (view (GoToTagPair_run s)) = [mkRegion target target]
  /\ buffer (view (GoToTagPair_run s)) = buffer (view s)
  /\ phantoms_by_buffer (GoToTagPair_run s) !! buffer_id (view s) = None.
Proof.
  intros Hcaret Hhtml Hctx Hlt Hsel. cbv zeta.
  unfold GoToTagPair_run. cbv zeta.
  rewrite (Hcaret _ _ Hsel), Hlt, bool_decide_eq_true_2 by done.
  rewrite Hhtml, Hctx by done. cbn [ctx_open ctx_close].
  unfold go_to_pos. cbv zeta.
  match goal with
  | |- context [hide_tag_preview ?st] =>
      destruct (hide_tag_preview_spec st) as (Hv & _ & Hnone & _)
  end.
  rewrite Hv. cbn in *. done.
Qed.

(** X21: the go-to-pair command toggles between the two tags. Let the
    caret be the single selection of the view, the text be HTML with the
    same pair of tags as context everywhere, the open tag non-empty and
    ending no later than the close tag begins, both beginning with [<]. From
    the start of the open tag the command moves the caret to the start of
    the close tag, and a second run moves it back, also when the two tags
    touch. *)
Theorem go_to_tag_pair_toggles (s : State) (open_tag close_tag : Region) :
  (forall v q, sel v = [mkRegion q q] -> get_caret v = q) ->
  (forall v q, buffer v = buffer (view s) -> is_html (from_pos v q) = true) ->
  (forall v q xml,
     buffer v = buffer (view s) ->
     get_tag_context v q xml
     = Some (mkTagContext (Some open_tag) (Some close_tag))) ->
  a open_tag < b open_tag -> b open_tag <= a close_tag ->
  char_at (view s) (a open_tag) = Some (ord "<") ->
  char_at (view s) (a close_tag) = Some (ord "<") ->
  sel (view s) = [mkRegion (a open_tag) (a open_tag)] ->
  sel (view (GoToTagPair_run s)) = [mkRegion (a close_tag) (a close_tag)]
  /\ sel (view (GoToTagPair_run (GoToTagPair_run s)))
     = [mkRegion (a open_tag) (a open_tag)].
Proof.
  intros Hcaret Hhtml Hctx Hopen Hpair Hlt1 Hlt2 Hsel.
  destruct (go_to_tag_pair_step s open_tag close_tag (a open_tag)
              Hcaret Hhtml Hctx Hlt1 Hsel) as (Hsel1 & Hbuf1 & _).
  assert (contains open_tag (a open_tag + 1) = true) as Hin.
  { unfold contains, begin, end_. apply andb_true_intro.
    split; apply Z.leb_le; lia. }
  rewrite Hin in Hsel1. split; [exact Hsel1|].
  assert (contains open_tag (a close_tag + 1) = false) as Hout.
  { unfold contains, begin, end_. apply andb_false_intro2.
    apply Z.leb_gt. lia. }
  destruct (go_to_tag_pair_step (GoToTagPair_run s) open_tag close_tag
              (a close_tag)) as (Hsel2 & _); try done.
  - intros v q Hv. apply Hhtml. congruence.
  - intros v q xml Hv. apply Hctx. congruence.
  - unfold char_at in *. now rewrite Hbuf1.
  - now rewrite Hout in Hsel2.
Qed.

End Handlers.

End GoToTagPairProperties.

(** ** Runs of the further properties on the concrete hosts *)

(** The JSX tracker over [<d()] with the caret before the closer. *)
Lemma should_stop_tracking_short_abbr_witness :
  should_stop_tracking jsx_tracker 11 = Raise IndexError.
Proof.
  apply (should_stop_tracking_short_abbr jsx_tracker
           (mkAbbreviation (py "d()") (Some (py "unexpected character")))).
  - reflexivity.
  - reflexivity.
  - reflexivity.
  - reflexivity.
  - discriminate.
  - vm_compute. reflexivity.
Defined.

(** The same text without marker: the caret before the closer stops the
    tracker, the caret before the opening parenthesis does not. *)
Lemma should_stop_tracking_whole_text_witness :
  should_stop_tracking whole_text_tracker 2 = Ok true
  /\ should_stop_tracking whole_text_tracker 1 = Ok false.
Proof.
  split.
  - apply (should_stop_tracking_whole_text whole_text_tracker
             (mkAbbreviation (py "d()") (Some (py "unexpected character"))));
      reflexivity.
  - apply (should_stop_tracking_whole_text whole_text_tracker
             (mkAbbreviation (py "d()") (Some (py "unexpected character"))));
      reflexivity.
Defined.

(** The letter [d] typed after [a ] outside JSX. *)
Lemma start_abbreviation_tracking_word_bound_witness :
  exists trk e',
    start_abbreviation_tracking (host := toy_host false true)
      (fresh_editor "a d" 3) 3 = Done (Some trk) e'
    /\ begin (region trk) = 2.
Proof.
  destruct (start_abbreviation_tracking_word_bound
              (host := toy_host false true) (fresh_editor "a d" 3) 3
              eq_refl ltac:(vm_compute; discriminate)) as [Hiff Hfields].
  destruct (proj2 Hiff) as (trk & e' & Hrun).
  { left. exists (ord "d"). split; [reflexivity|]. split; [reflexivity|].
    right. exists (ord " "). split; reflexivity. }
  exists trk, e'. split; [exact Hrun|].
  now destruct (Hfields trk e' Hrun).
Defined.

(** Enter pressed behind [d]: the tracker over the line feed is stopped. *)
Lemma line_feed_tracker_stops_witness :
  should_stop_tracking line_feed_tracker 2 = Ok true.
Proof.
  apply (line_feed_tracker_stops (host := toy_host false true)
           (fresh_editor d_newline 2)
           (marked_editor d_newline 2 (mkRegion 1 2) line_feed_tracker) 2).
  - vm_compute. reflexivity.
  - reflexivity.
Defined.

(** The tracker over [()] typed after a space. *)
Lemma start_abbreviation_tracking_safe_witness :
  should_stop_tracking paren_tracker 2 = Ok true.
Proof.
  rewrite (start_abbreviation_tracking_safe (host := toy_host false true)
             (fresh_editor " ()" 2)
             (marked_editor " ()" 2 (mkRegion 1 3) paren_tracker) 2
             paren_tracker).
  - reflexivity.
  - reflexivity.
  - vm_compute. discriminate.
  - vm_compute. reflexivity.
Defined.

(** A completion query at the caret inside the tracker over [a]. *)
Lemma suggest_abbreviation_tracker_covered_witness :
  suggest_abbreviation_tracker (host := toy_host false true)
    (tracked_editor "a b c" 1 letter_tracker) 1
  = (None, tracked_editor "a b c" 1 letter_tracker)
  /\ (on_query_completions (host := toy_host false true) pending_listener
        (tracked_editor "a b c" 1 letter_tracker) [1]).2
     = Done None (tracked_editor "a b c" 1 letter_tracker).
Proof.
  destruct (suggest_abbreviation_tracker_covered
              (host := toy_host false true)
              (tracked_editor "a b c" 1 letter_tracker) 1 letter_tracker
              eq_refl eq_refl) as (Hs & _ & Hq).
  split; [exact Hs|apply Hq].
Defined.

(** The handlers of a host with [auto_mark] off, after the letter [d]. *)
Lemma auto_mark_off_witness :
  on_selection_modified (host := toy_host false false)
    (lhost := toy_listener_host) (listener_at 2) (fresh_editor "a d" 3)
  = Done (listener_at 2) (fresh_editor "a d" 3)
  /\ final (on_modified (host := toy_host false false) (listener_at 2)
              (fresh_editor "a d" 3))
     = fresh_editor "a d" 3.
Proof.
  destruct (auto_mark_off (host := toy_host false false)
              (lhost := toy_listener_host) (listener_at 2)
              (fresh_editor "a d" 3) eq_refl) as (Hmod & Hsel & _).
  split; [exact Hsel|].
  destruct (Hmod eq_refl) as [H|H].
  - exact H.
  - vm_compute in H. vm_compute. exact H.
Defined.

(** A pending completion query behind the last letter of [a b c]. *)
Lemma on_query_completions_item_witness :
  exists trk ab,
    get_tracker (marked_editor "a b c" 5 (mkRegion 4 5) suggested_tracker)
    = Some trk
    /\ abbreviation trk = Some ab
    /\ [(py "c" ++ TAB :: py "Emmet", py "<c/>")]
       = [(substr (code_view "a b c" 5) (region trk) ++ TAB :: py "Emmet",
           py "<" ++ abbr ab ++ py "/>")].
Proof.
  destruct (on_query_completions_item (host := toy_host false true)
              pending_listener (mkListener ∅ false)
              (fresh_editor "a b c" 5)
              (marked_editor "a b c" 5 (mkRegion 4 5) suggested_tracker)
              [5] [(py "c" ++ TAB :: py "Emmet", py "<c/>")])
    as (trk & ab & Hg & _ & Hab & Hitems).
  { vm_compute. reflexivity. }
  exists trk, ab. split; [exact Hg|]. split; [exact Hab|]. exact Hitems.
Defined.

(** Undo on a view whose marker is left: the tracker comes back, once. *)
Lemma restore_tracker_idempotent_witness :
  (exists trk e',
     restore_tracker (host := toy_host false true)
       (lhost := toy_listener_host) undone_editor = (Some trk, e')
     /\ region trk = mkRegion 0 1 /\ forced trk = false
     /\ restore_tracker (host := toy_host false true)
          (lhost := toy_listener_host) e' = (None, e')).
Proof.
  destruct (restore_tracker_idempotent (host := toy_host false true)
              (lhost := toy_listener_host) undone_editor) as [Hsome Hagain].
  destruct (restore_tracker (host := toy_host false true)
              (lhost := toy_listener_host) undone_editor)
    as [[trk|] e'] eqn:Hrun; [|vm_compute in Hrun; discriminate].
  exists trk, e'. split; [reflexivity|].
  destruct (Hsome trk e' eq_refl)
    as (_ & _ & Hf & r & rest & Hm & Hr & _).
  injection Hm as <- <-. split; [exact Hr|]. split; [exact Hf|exact Hagain].
Defined.

Lemma on_post_text_command_undo_witness :
  exists trk,
    get_tracker
      (on_post_text_command (host := toy_host false true)
         (lhost := toy_listener_host) (listener_at 1) undone_editor "undo").2
    = Some trk
    /\ region trk = mkRegion 0 1 /\ preview_visible trk = true.
Proof.
  destruct (on_post_text_command_undo (host := toy_host false true)
              (lhost := toy_listener_host) (listener_at 1) undone_editor)
    as (_ & Hrestore & _).
  destruct (Hrestore (mkRegion 0 1) [] eq_refl eq_refl)
    as (trk & Hg & Hr & Hp & _).
  exists trk. split; [exact Hg|]. split; [exact Hr|exact Hp].
Defined.

(** The contexts of a view with the forced tracker over [d()]. *)
Lemma on_query_context_coherent_witness :
  on_query_context (lhost := toy_listener_host)
    (tracked_editor "d()" 3 forced_tracker)
    "has_emmet_abbreviation_mark" = Some true
  /\ on_query_context (lhost := toy_listener_host)
       (tracked_editor "d()" 3 forced_tracker)
       "emmet_tag_preview" = None.
Proof.
  destruct (on_query_context_coherent (lhost := toy_listener_host)
              (tracked_editor "d()" 3 forced_tracker))
    as (Hforced & _ & _ & Hother).
  split; [apply Hforced; reflexivity|apply Hother; discriminate].
Defined.

(** Forced mode entered on the selection [2, 5] of [a b c]. *)
Lemma enter_abbreviation_context_witness :
  exists e',
    EmmetEnterAbbreviation_run (host := toy_host false true)
      (mkEditor (mkView 1 (py "a b c") [mkRegion 2 5] false []) ∅)
    = Done tt e'
    /\ on_query_context (lhost := toy_listener_host) e'
         "emmet_abbreviation" = Some true.
Proof.
  destruct (enter_abbreviation_context (host := toy_host false true)
              (lhost := toy_listener_host)
              (mkEditor (mkView 1 (py "a b c") [mkRegion 2 5] false []) ∅))
    as [Hnew _].
  destruct (Hnew (mkRegion 2 5) [] ltac:(discriminate) eq_refl)
    as (e' & Hrun & Hctx & _).
  exists e'. split; [exact Hrun|exact Hctx].
Defined.

(** The page [<a></a>] with the caret in the close tag. *)
Lemma handlers_keep_consistent_witness :
  GoToTagPair.consistent
    (GoToTagPair.final
       (GoToTagPair.on_selection_modified_async
          (host := GoToTagPair.toy_host (mkRegion 0 3) (mkRegion 3 7))
          (GoToTagPair.page 5))).
Proof.
  apply (GoToTagPairProperties.handlers_keep_consistent
           (host := GoToTagPair.toy_host (mkRegion 0 3) (mkRegion 3 7))
           (GoToTagPair.page 5)).
  split.
  - intros k [x Hx]. vm_compute in Hx. discriminate.
  - intros H. now destruct H.
Defined.

Lemma hidden_preview_stays_hidden_witness :
  GoToTagPair.on_query_context
    (GoToTagPair.HideTagPreview_run
       (GoToTagPair.final
          (GoToTagPair.on_selection_modified_async
             (host := GoToTagPair.toy_host (mkRegion 0 3) (mkRegion 3 7))
             (GoToTagPair.page 5))))
    "emmet_tag_preview"
  = Some false.
Proof.
  destruct (GoToTagPairProperties.hidden_preview_stays_hidden
              (host := GoToTagPair.toy_host (mkRegion 0 3) (mkRegion 3 7))
              (GoToTagPair.page 5)
              (GoToTagPair.final
                 (GoToTagPair.on_selection_modified_async
                    (host := GoToTagPair.toy_host (mkRegion 0 3)
                               (mkRegion 3 7))
                    (GoToTagPair.page 5)))
              7) as (_ & Hoff & _).
  - vm_compute. reflexivity.
  - vm_compute. reflexivity.
  - exact Hoff.
Defined.

(** The caret at the start of [<a></a>], whose tags touch. *)
Lemma go_to_tag_pair_toggles_witness :
  GoToTagPair.sel
    (GoToTagPair.view
       (GoToTagPair.GoToTagPair_run
          (host := GoToTagPair.toy_host (mkRegion 0 3) (mkRegion 3 7))
          (GoToTagPair.page 0)))
  = [mkRegion 3 3]
  /\ GoToTagPair.sel
       (GoToTagPair.view
          (GoToTagPair.GoToTagPair_run
             (host := GoToTagPair.toy_host (mkRegion 0 3) (mkRegion 3 7))
             (GoToTagPair.GoToTagPair_run
                (host := GoToTagPair.toy_host (mkRegion 0 3) (mkRegion 3 7))
                (GoToTagPair.page 0))))
     = [mkRegion 0 0].
Proof.
  apply (GoToTagPairProperties.go_to_tag_pair_toggles
           (host := GoToTagPair.toy_host (mkRegion 0 3) (mkRegion 3 7))
           (GoToTagPair.page 0) (mkRegion 0 3) (mkRegion 3 7)).
  - intros v q Hsel. cbn. now rewrite Hsel.
  - reflexivity.
  - reflexivity.
  - reflexivity.
  - vm_compute. discriminate.
  - reflexivity.
  - reflexivity.
  - reflexivity.
Defined.
